(** * Firefly analyzer: cloud / IaC resource reconciliation

    A shallow embedding of the reconciliation engine of the repository
    ([utils.py], [matcher.py], [diff_converter.py], [analyzer.py]) and the
    properties its specification states about it.

    Conventions of the embedding.
    - A Python value built from JSON is a [value]; a [dict] keeps its
      insertion order and is an association list.
    - A Python [str] is a [string] whose characters are the code points
      below 256 (the Latin-1 block of Unicode), one [ascii] per code point;
      texts with a character beyond U+00FF are outside the embedding, and
      what is proved of [isdigit] and [int] by their definitions is so of
      Latin-1 texts.
    - A Python [float] is an IEEE-754 binary64 number, a [spec_float] of the
      standard library with precision 53 and maximal exponent 1024.
    - Code that can raise returns a [result]; loops with an early [return]
      are [find] and [existsb] over the list they scan.
    - The builtins [float()] and [str()] and the third-party structural
      diff [DeepDiff] are not part of the repository: they are the
      variables of the sections below. *)

From Stdlib Require Import ZArith List String Ascii Bool Lia.
From Stdlib Require Import SpecFloat DecimalString DecimalNat DecimalFacts.
Import ListNotations.

Set Warnings "-register-all".

Local Open Scope string_scope.
Local Open Scope list_scope.

(* ================================================================== *)
(** * Exceptions *)

Inductive exn : Type := ValueError | TypeError.

Inductive result (A : Type) : Type :=
| Ok (a : A)
| Raise (e : exn).

Arguments Ok {A} a.
Arguments Raise {A} e.

Definition bind {A B : Type} (c : result A) (k : A -> result B) : result B :=
  match c with
  | Ok a => k a
  | Raise e => Raise e
  end.

Notation "x <- c ;; k" := (bind c (fun x => k))
  (at level 61, c at next level, right associativity).

(** A [for] loop whose body can raise and which appends to a list. *)
Fixpoint for_each {A B : Type} (body : A -> result (list B)) (l : list A)
  : result (list B) :=
  match l with
  | [] => Ok []
  | a :: l' => out <- body a ;; rest <- for_each body l' ;; Ok (out ++ rest)
  end.

(* ================================================================== *)
(** * Python values *)

Inductive value : Type :=
| VNone
| VBool (b : bool)
| VInt (z : Z)
| VFloat (f : spec_float)
| VStr (s : string)
| VList (l : list value)
| VDict (d : list (string * value)).

(** A resource is a top-level [dict]. *)
Definition resource : Type := list (string * value).

Fixpoint dict_get (k : string) (d : list (string * value)) : option value :=
  match d with
  | [] => None
  | (k', v) :: d' => if String.eqb k k' then Some v else dict_get k d'
  end.

(** [d.get(k)]: the value, or [None] when the key is absent. *)
Definition get (d : list (string * value)) (k : string) : value :=
  match dict_get k d with
  | Some v => v
  | None => VNone
  end.

(** [k in d] *)
Definition has_key (k : string) (d : list (string * value)) : bool :=
  match dict_get k d with
  | Some _ => true
  | None => false
  end.

(** ** binary64 *)

Definition prec : Z := 53.
Definition emax : Z := 1024.

Definition float_add : spec_float -> spec_float -> spec_float := SFadd prec emax.
Definition float_eqb : spec_float -> spec_float -> bool := SFeqb.
Definition float_ltb : spec_float -> spec_float -> bool := SFltb.

(** The literals of [matcher.py], as the nearest binary64 numbers. *)
Definition f0_0 : spec_float := S754_zero false.
Definition f0_2 : spec_float := S754_finite false 7205759403792794 (-55).
Definition f0_4 : spec_float := S754_finite false 7205759403792794 (-54).
Definition f1_0 : spec_float := S754_finite false 4503599627370496 (-52).

(** An [int] and a [float] compare by their exact mathematical values. *)
Definition float_eq_int (f : spec_float) (z : Z) : bool :=
  match f with
  | S754_zero _ => (z =? 0)%Z
  | S754_finite s m e =>
      let sm := if s then Zneg m else Zpos m in
      if (0 <=? e)%Z then (z =? sm * 2 ^ e)%Z else (sm =? z * 2 ^ (- e))%Z
  | _ => false
  end.

(** ** Truth value, [==], [type(v).__name__], iteration *)

Definition truthy (v : value) : bool :=
  match v with
  | VNone => false
  | VBool b => b
  | VInt z => negb (z =? 0)%Z
  | VFloat (S754_zero _) => false
  | VFloat _ => true
  | VStr s => negb (String.eqb s EmptyString)
  | VList l => match l with [] => false | _ => true end
  | VDict d => match d with [] => false | _ => true end
  end.

(** [a or b] *)
Definition py_or (a b : value) : value := if truthy a then a else b.

Definition int_of_bool (b : bool) : Z := if b then 1%Z else 0%Z.

(** [a == b] on JSON values: [bool] is a subtype of [int], numbers compare
    across [int] and [float], containers compare element-wise and a [dict]
    regardless of the order of its keys. *)
Fixpoint py_eq (a b : value) {struct a} : bool :=
  match a, b with
  | VNone, VNone => true
  | VBool x, VBool y => (int_of_bool x =? int_of_bool y)%Z
  | VBool x, VInt y => (int_of_bool x =? y)%Z
  | VBool x, VFloat g => float_eq_int g (int_of_bool x)
  | VInt x, VBool y => (x =? int_of_bool y)%Z
  | VInt x, VInt y => (x =? y)%Z
  | VInt x, VFloat g => float_eq_int g x
  | VFloat f, VBool y => float_eq_int f (int_of_bool y)
  | VFloat f, VInt y => float_eq_int f y
  | VFloat f, VFloat g => float_eqb f g
  | VStr s, VStr t => String.eqb s t
  | VList l, VList m =>
      (fix go (l m : list value) {struct l} : bool :=
         match l, m with
         | [], [] => true
         | x :: l', y :: m' => py_eq x y && go l' m'
         | _, _ => false
         end) l m
  | VDict d, VDict e =>
      Nat.eqb (List.length d) (List.length e) &&
      (fix go (d : list (string * value)) {struct d} : bool :=
         match d with
         | [] => true
         | (k, v) :: d' =>
             match dict_get k e with
             | Some w => py_eq v w
             | None => false
             end && go d'
         end) d
  | _, _ => false
  end.

(** [x in l] for a list [l] (the shortcut of [in] for an element that is
    the very object [x] matters for a NaN only and is left out). *)
Definition py_in (x : value) (l : list value) : bool := existsb (py_eq x) l.

Definition type_name (v : value) : string :=
  match v with
  | VNone => "NoneType"
  | VBool _ => "bool"
  | VInt _ => "int"
  | VFloat _ => "float"
  | VStr _ => "str"
  | VList _ => "list"
  | VDict _ => "dict"
  end.

Fixpoint chars (s : string) : list value :=
  match s with
  | EmptyString => []
  | String c s' => VStr (String c EmptyString) :: chars s'
  end.

(** [for item in v]: the characters of a [str], the elements of a [list],
    the keys of a [dict]; anything else is not iterable. *)
Definition py_iter (v : value) : result (list value) :=
  match v with
  | VStr s => Ok (chars s)
  | VList l => Ok l
  | VDict d => Ok (map (fun kv => VStr (fst kv)) d)
  | _ => Raise TypeError
  end.

(* ================================================================== *)
(** * utils.py *)

Definition is_ascii_digit (c : ascii) : bool :=
  (48 <=? nat_of_ascii c)%nat && (nat_of_ascii c <=? 57)%nat.

(** The characters below U+0100 for which [str.isdigit] holds: the ten
    decimal digits and the superscripts U+00B2, U+00B3 and U+00B9. *)
Definition is_digit_char (c : ascii) : bool :=
  is_ascii_digit c
  || (nat_of_ascii c =? 178)%nat
  || (nat_of_ascii c =? 179)%nat
  || (nat_of_ascii c =? 185)%nat.

Fixpoint string_forallb (p : ascii -> bool) (s : string) : bool :=
  match s with
  | EmptyString => true
  | String c s' => p c && string_forallb p s'
  end.

(** [s.isdigit()]: at least one character, all of them digits. *)
Definition isdigit (s : string) : bool :=
  match s with
  | EmptyString => false
  | _ => string_forallb is_digit_char s
  end.

Fixpoint decimal_value (acc : Z) (s : string) : Z :=
  match s with
  | EmptyString => acc
  | String c s' => decimal_value (acc * 10 + Z.of_nat (nat_of_ascii c - 48)) s'
  end.

(** [sys.get_int_max_str_digits()]: by default [int] refuses a decimal
    literal of more than 4300 digits, leading zeros included. *)
Definition int_max_str_digits : Z := 4300.

(** [int(s)] on the strings that reach it in [normalize_value], those made
    of [isdigit] characters: only decimal digits have a value, any other
    character is an invalid literal, and a literal of more than
    [int_max_str_digits] digits is refused; both failures are a
    [ValueError]. *)
Definition py_int (s : string) : result Z :=
  match s with
  | EmptyString => Raise ValueError
  | _ => if string_forallb is_ascii_digit s
            && (Z.of_nat (String.length s) <=? int_max_str_digits)%Z
         then Ok (decimal_value 0 s)
         else Raise ValueError
  end.

Section Normalize.

(** [float(s)] of a [str]: the parsed number, or [None] for the
    [ValueError] that the [try] of [normalize_value] catches. *)
Variable py_float : string -> option spec_float.

Definition normalize_value (v : value) : result value :=
  match v with
  | VStr s =>
      if isdigit s then z <- py_int s ;; Ok (VInt z)
      else match py_float s with
           | Some f => Ok (VFloat f)
           | None => Ok v
           end
  | _ => Ok v
  end.

End Normalize.

(* ================================================================== *)
(** * matcher.py *)

Definition id_fields : list string := ["id"; "resource_id"; "arn"].

Definition cloud_ids (cloud_resource : resource) : list value :=
  map (get cloud_resource)
      (filter (fun field => truthy (get cloud_resource field)) id_fields).

(** The test of the inner loop of [_primary_match] on one candidate. *)
Definition primary_hit (cloud_resource iac_resource : resource) : bool :=
  existsb (fun field =>
             match dict_get field iac_resource with
             | Some v => py_in v (cloud_ids cloud_resource)
             | None => false
             end) id_fields.

Definition _primary_match (cloud_resource : resource) (iac_resources : list resource)
  : option resource :=
  find (primary_hit cloud_resource) iac_resources.

Definition resource_type (r : resource) : value :=
  py_or (get r "type") (get r "resourceType").

Definition secondary_hit (cloud_resource iac_resource : resource) : bool :=
  py_eq (resource_type iac_resource) (resource_type cloud_resource)
  && py_eq (get iac_resource "name") (get cloud_resource "name").

Definition _secondary_match (cloud_resource : resource) (iac_resources : list resource)
  : option resource :=
  let cloud_type := resource_type cloud_resource in
  let cloud_name := get cloud_resource "name" in
  if negb (truthy cloud_type) || negb (truthy cloud_name) then None
  else find (secondary_hit cloud_resource) iac_resources.

Definition name_region_hit (cloud_resource iac_resource : resource) : bool :=
  py_eq (get iac_resource "name") (get cloud_resource "name")
  && py_eq (get iac_resource "region") (get cloud_resource "region").

Definition name_hit (cloud_resource iac_resource : resource) : bool :=
  py_eq (get iac_resource "name") (get cloud_resource "name").

Definition _tertiary_match (cloud_resource : resource) (iac_resources : list resource)
  : option resource :=
  let cloud_name := get cloud_resource "name" in
  let cloud_region := get cloud_resource "region" in
  if negb (truthy cloud_name) then None
  else
    match (if truthy cloud_region
           then find (name_region_hit cloud_resource) iac_resources
           else None) with
    | Some iac_resource => Some iac_resource
    | None => find (name_hit cloud_resource) iac_resources
    end.

(** [if m:] for [m : Optional[dict]]: [None] and the empty [dict] are false. *)
Definition match_truthy (m : option resource) : bool :=
  match m with
  | Some r => truthy (VDict r)
  | None => false
  end.

Definition find_matching_iac_resource (cloud_resource : resource)
  (iac_resources : list resource) : option resource :=
  let primary_match := _primary_match cloud_resource iac_resources in
  if match_truthy primary_match then primary_match
  else
    let secondary_match := _secondary_match cloud_resource iac_resources in
    if match_truthy secondary_match then secondary_match
    else
      let tertiary_match := _tertiary_match cloud_resource iac_resources in
      if match_truthy tertiary_match then tertiary_match
      else None.

(** [min(score, 1.0)] *)
Definition float_min (a b : spec_float) : spec_float :=
  if float_ltb b a then b else a.

Definition id_pair_hit (cloud_resource iac_resource : resource) : bool :=
  existsb (fun cloud_field =>
    existsb (fun iac_field =>
      truthy (get cloud_resource cloud_field)
      && truthy (get iac_resource iac_field)
      && py_eq (get cloud_resource cloud_field) (get iac_resource iac_field))
    id_fields) id_fields.

Definition get_match_confidence (cloud_resource iac_resource : resource)
  : spec_float :=
  if id_pair_hit cloud_resource iac_resource then f1_0
  else
    let score := f0_0 in
    let cloud_type := resource_type cloud_resource in
    let iac_type := resource_type iac_resource in
    let cloud_name := get cloud_resource "name" in
    let iac_name := get iac_resource "name" in
    let score := if py_eq cloud_type iac_type then float_add score f0_4 else score in
    let score := if py_eq cloud_name iac_name then float_add score f0_4 else score in
    let cloud_region := get cloud_resource "region" in
    let iac_region := get iac_resource "region" in
    let score := if py_eq cloud_region iac_region then float_add score f0_2 else score in
    float_min score f1_0.

(* ================================================================== *)
(** * Strings: the [str] methods used by [diff_converter.py] *)

Definition startswith (p s : string) : bool := String.prefix p s.

(** [s.endswith(suf)]: some suffix of [s] is [suf]. *)
Fixpoint endswith (suf s : string) : bool :=
  if String.eqb s suf then true
  else match s with
       | EmptyString => false
       | String _ s' => endswith suf s'
       end.

(** [s[n:]] *)
Fixpoint drop (n : nat) (s : string) : string :=
  match n, s with
  | O, _ => s
  | S n', String _ s' => drop n' s'
  | S _, EmptyString => EmptyString
  end.

(** [s[:n]] for [0 <= n] *)
Fixpoint take (n : nat) (s : string) : string :=
  match n, s with
  | S n', String c s' => String c (take n' s')
  | _, _ => EmptyString
  end.

(** [s[:-n]] for [0 < n] *)
Definition drop_last (n : nat) (s : string) : string :=
  take (String.length s - n) s.

(** [s.replace(pat, rep)] for a non-empty [pat]: occurrences are replaced
    from left to right and do not overlap; [skip] counts the characters of
    a matched occurrence still to be passed over. *)
Fixpoint replace_from (pat rep : string) (skip : nat) (s : string) : string :=
  match s with
  | EmptyString => EmptyString
  | String c s' =>
      match skip with
      | S k => replace_from pat rep k s'
      | O =>
          if String.prefix pat s
          then (rep ++ replace_from pat rep (String.length pat - 1) s')%string
          else String c (replace_from pat rep 0 s')
      end
  end.

Definition replace (pat rep s : string) : string := replace_from pat rep 0 s.

(** [pat in s] for strings *)
Fixpoint str_contains (pat s : string) : bool :=
  String.prefix pat s
  || match s with
     | EmptyString => false
     | String _ s' => str_contains pat s'
     end.

(* ================================================================== *)
(** * diff_converter.py *)

(** One entry of the ChangeLog. *)
Record change_entry : Type := mk_entry {
  KeyName : string;
  CloudValue : value;
  IacValue : value
}.

(** The value DeepDiff stores for a changed path. *)
Record change : Type := mk_change {
  new_value : value;
  old_value : value
}.

(** The result tree of DeepDiff, by category; the categories that are
    dictionaries keep their paths in insertion order. *)
Record diff : Type := mk_diff {
  values_changed : list (string * change);
  dictionary_item_added : list string;
  dictionary_item_removed : list string;
  type_changes : list (string * change);
  iterable_item_added : list (string * value);
  iterable_item_removed : list (string * value)
}.

Definition empty_diff : diff := mk_diff [] [] [] [] [] [].

Definition is_nil {A : Type} (l : list A) : bool :=
  match l with [] => true | _ => false end.

(** [not diff]: DeepDiff keeps only the categories that have entries. *)
Definition diff_is_empty (d : diff) : bool :=
  is_nil (values_changed d) && is_nil (dictionary_item_added d)
  && is_nil (dictionary_item_removed d) && is_nil (type_changes d)
  && is_nil (iterable_item_added d) && is_nil (iterable_item_removed d).

Definition _convert_path_to_key_name (path : string) : string :=
  let path := if startswith "root['" path then drop 6 path else path in
  let path := if endswith "']" path then drop_last 2 path else path in
  let path := replace "']['" "." path in
  let path := replace "][" "." path in
  let path := replace "'" EmptyString path in
  let path := replace "[" EmptyString path in
  let path := replace "]" EmptyString path in
  path.

Definition exclude_paths : list string :=
  ["root['id']"; "root['resource_id']"; "root['arn']"].

Definition is_dict (v : value) : bool :=
  match v with VDict _ => true | _ => false end.

Definition hashable (v : value) : bool :=
  match v with VList _ | VDict _ => false | _ => true end.

(** [m[k] = item] on a [dict] with arbitrary hashable keys. *)
Fixpoint map_set (m : list (value * value)) (k item : value)
  : list (value * value) :=
  match m with
  | [] => [(k, item)]
  | (k', x) :: m' =>
      if py_eq k' k then (k', item) :: m' else (k', x) :: map_set m' k item
  end.

(** [m.get(k)] *)
Definition map_get (m : list (value * value)) (k : value) : value :=
  match find (fun kv => py_eq (fst kv) k) m with
  | Some kv => snd kv
  | None => VNone
  end.

(** ["id" in item] *)
Definition contains_id (item : value) : result bool :=
  match item with
  | VDict d => Ok (has_key "id" d)
  | VStr s => Ok (str_contains "id" s)
  | VList l => Ok (py_in (VStr "id") l)
  | _ => Raise TypeError
  end.

(** [item["id"]], reached only when ["id" in item] holds. *)
Definition subscript_id (item : value) : result value :=
  match item with
  | VDict d => Ok (get d "id")
  | _ => Raise TypeError
  end.

(** The loop that fills [cloud_map] or [iac_map]. *)
Fixpoint build_id_map (m : list (value * value)) (array : list value)
  : result (list (value * value)) :=
  match array with
  | [] => Ok m
  | item :: rest =>
      b <- contains_id item ;;
      if b then
        k <- subscript_id item ;;
        if hashable k then build_id_map (map_set m k item) rest
        else Raise TypeError
      else build_id_map m rest
  end.

(** [set(a.keys()) | set(b.keys())]; the iteration order of a Python set
    is unspecified, the keys of [a] followed by the new keys of [b] is
    one of the possible orders. *)
Definition union_keys (a b : list (value * value)) : list value :=
  map fst a ++ filter (fun k => negb (py_in k (map fst a))) (map fst b).

(** A value found under a path in one of the dictionary categories. *)
Inductive change_val : Type :=
| ChangeDict (c : change)
| ChangeItem (v : value).

(** The [(path, change)] pairs met by the two nested loops over
    [item_diff.items()]: only the categories that are dictionaries, in
    the order DeepDiff creates them. *)
Definition dict_categories (d : diff) : list (string * change_val) :=
  map (fun pc => (fst pc, ChangeDict (snd pc))) (type_changes d)
  ++ map (fun pc => (fst pc, ChangeDict (snd pc))) (values_changed d)
  ++ map (fun pv => (fst pv, ChangeItem (snd pv))) (iterable_item_added d)
  ++ map (fun pv => (fst pv, ChangeItem (snd pv))) (iterable_item_removed d).

(** [change.get(key, change)] when [change] is an element that happens to
    be a [dict]. *)
Definition get_or_self (d : list (string * value)) (key : string) : value :=
  match dict_get key d with
  | Some v => v
  | None => VDict d
  end.

Section DiffConverter.

Variable py_float : string -> option spec_float.

(** [str(v)], as the f-strings format a value; it is taken to return,
    as it does on every value that [json.load] produces. *)
Variable py_str : value -> string.

(** [DeepDiff(old, new, ignore_order=True, exclude_paths=...)] *)
Variable DeepDiff : value -> value -> list string -> diff.

Definition _process_values_changed (values_changed : list (string * change))
  (change_log : list change_entry) : result (list change_entry) :=
  new_entries <- for_each (fun pc : string * change =>
      let key_name := _convert_path_to_key_name (fst pc) in
      cloud_value <- normalize_value py_float (new_value (snd pc)) ;;
      iac_value <- normalize_value py_float (old_value (snd pc)) ;;
      Ok [mk_entry key_name cloud_value iac_value]) values_changed ;;
  Ok (change_log ++ new_entries).

Definition _process_dictionary_item_added (items_added : list string)
  (change_log : list change_entry) : result (list change_entry) :=
  Ok (change_log ++
      map (fun path => mk_entry (_convert_path_to_key_name path)
                                (VStr "ADDED") VNone) items_added).

Definition _process_dictionary_item_removed (items_removed : list string)
  (change_log : list change_entry) : result (list change_entry) :=
  Ok (change_log ++
      map (fun path => mk_entry (_convert_path_to_key_name path)
                                VNone (VStr "REMOVED")) items_removed).

Definition type_and_value (v : value) : value :=
  VStr (type_name v ++ ": " ++ py_str v)%string.

Definition _process_type_changes (type_changes : list (string * change))
  (change_log : list change_entry) : result (list change_entry) :=
  Ok (change_log ++
      map (fun pc : string * change =>
             mk_entry (_convert_path_to_key_name (fst pc))
                      (type_and_value (new_value (snd pc)))
                      (type_and_value (old_value (snd pc)))) type_changes).

Definition _process_iterable_item_added (items_added : list (string * value))
  (change_log : list change_entry) : result (list change_entry) :=
  new_entries <- for_each (fun pi : string * value =>
      let key_name := _convert_path_to_key_name (fst pi) in
      items <- py_iter (snd pi) ;;
      Ok (map (fun item => mk_entry (key_name ++ "[+]")%string item VNone) items))
    items_added ;;
  Ok (change_log ++ new_entries).

Definition _process_iterable_item_removed (items_removed : list (string * value))
  (change_log : list change_entry) : result (list change_entry) :=
  new_entries <- for_each (fun pi : string * value =>
      let key_name := _convert_path_to_key_name (fst pi) in
      items <- py_iter (snd pi) ;;
      Ok (map (fun item => mk_entry (key_name ++ "[-]")%string VNone item) items))
    items_removed ;;
  Ok (change_log ++ new_entries).

(** The six calls of [convert_diff_to_changelog] on a non-empty diff,
    threading [self.change_log]. *)
Definition process_diff (d : diff) : result (list change_entry) :=
  change_log <- _process_values_changed (values_changed d) [] ;;
  change_log <- _process_dictionary_item_added (dictionary_item_added d) change_log ;;
  change_log <- _process_dictionary_item_removed (dictionary_item_removed d) change_log ;;
  change_log <- _process_type_changes (type_changes d) change_log ;;
  change_log <- _process_iterable_item_added (iterable_item_added d) change_log ;;
  change_log <- _process_iterable_item_removed (iterable_item_removed d) change_log ;;
  Ok change_log.

Definition convert_diff_to_changelog (cloud_resource iac_resource : resource)
  : result (list change_entry) :=
  let d := DeepDiff (VDict iac_resource) (VDict cloud_resource) exclude_paths in
  if diff_is_empty d then Ok [] else process_diff d.

(** The entry appended for one [(path, change)] of [item_diff]. *)
Definition item_change_entry (array_path : string) (item_id : value)
  (pc : string * change_val) : change_entry :=
  let key_name := (array_path ++ "." ++ py_str item_id ++ "."
                   ++ _convert_path_to_key_name (fst pc))%string in
  match snd pc with
  | ChangeDict c => mk_entry key_name (new_value c) (old_value c)
  | ChangeItem (VDict d) =>
      mk_entry key_name (get_or_self d "new_value") (get_or_self d "old_value")
  | ChangeItem v => mk_entry key_name v v
  end.

(** The body of the loop over [all_ids]. *)
Definition compare_one_id (cloud_map iac_map : list (value * value))
  (array_path : string) (item_id : value) : list change_entry :=
  let cloud_item := map_get cloud_map item_id in
  let iac_item := map_get iac_map item_id in
  if truthy cloud_item && truthy iac_item then
    let item_diff := DeepDiff iac_item cloud_item [] in
    if diff_is_empty item_diff then []
    else map (item_change_entry array_path item_id) (dict_categories item_diff)
  else if truthy cloud_item then
    [mk_entry (array_path ++ "." ++ py_str item_id)%string (VStr "ADDED") VNone]
  else if truthy iac_item then
    [mk_entry (array_path ++ "." ++ py_str item_id)%string VNone (VStr "REMOVED")]
  else [].

(** The test that guards identity matching. *)
Definition id_matching_guard (cloud_array iac_array : list value) : bool :=
  match cloud_array, iac_array with
  | cloud_first :: _, iac_first :: _ => is_dict cloud_first && is_dict iac_first
  | _, _ => false
  end.

Definition compare_arrays_with_id_matching (cloud_array iac_array : list value)
  (array_path : string) : result (list change_entry) :=
  if id_matching_guard cloud_array iac_array then
    cloud_map <- build_id_map [] cloud_array ;;
    iac_map <- build_id_map [] iac_array ;;
    let all_ids := union_keys cloud_map iac_map in
    Ok (flat_map (compare_one_id cloud_map iac_map array_path) all_ids)
  else
    Ok [mk_entry array_path (VList cloud_array) (VList iac_array)].

End DiffConverter.

(* ================================================================== *)
(** * analyzer.py *)

Record analysis_item : Type := mk_item {
  CloudResourceItem : resource;
  IacResourceItem : option resource;
  State : string;
  ChangeLog : list change_entry
}.

Record summary_counts : Type := mk_summary {
  total : nat;
  missing : nat;
  modified : nat;
  match_ : nat
}.

Record analysis_report : Type := mk_report {
  analysis : list analysis_item;
  summary : summary_counts
}.

(** [{k: v for k, v in r.items() if k not in ['id', 'resource_id', 'arn']}] *)
Definition without_ids (r : resource) : resource :=
  filter (fun kv => negb (existsb (String.eqb (fst kv)) id_fields)) r.

(** [sum(1 for result in analysis_results if result["State"] == s)] *)
Definition count_state (s : string) (analysis_results : list analysis_item) : nat :=
  List.length (filter (fun r => String.eqb (State r) s) analysis_results).

Definition _generate_summary (analysis_results : list analysis_item)
  : summary_counts :=
  mk_summary (List.length analysis_results)
             (count_state "Missing" analysis_results)
             (count_state "Modified" analysis_results)
             (count_state "Match" analysis_results).

(** A [for] loop that appends one result per element. *)
Fixpoint map_result {A B : Type} (f : A -> result B) (l : list A)
  : result (list B) :=
  match l with
  | [] => Ok []
  | a :: l' => b <- f a ;; rest <- map_result f l' ;; Ok (b :: rest)
  end.

Section Analyzer.

Variable py_float : string -> option spec_float.
Variable py_str : value -> string.
Variable DeepDiff : value -> value -> list string -> diff.

Definition _are_resources_identical (cloud_resource iac_resource : resource)
  : bool :=
  let cloud_copy := without_ids cloud_resource in
  let iac_copy := without_ids iac_resource in
  diff_is_empty (DeepDiff (VDict iac_copy) (VDict cloud_copy) []).

Definition _analyze_single_resource (cloud_resource : resource)
  (iac_resources : list resource) : result analysis_item :=
  match find_matching_iac_resource cloud_resource iac_resources with
  | None => Ok (mk_item cloud_resource None "Missing" [])
  | Some matching_iac =>
      if negb (truthy (VDict matching_iac))
      then Ok (mk_item cloud_resource None "Missing" [])
      else if _are_resources_identical cloud_resource matching_iac
      then Ok (mk_item cloud_resource (Some matching_iac) "Match" [])
      else
        change_log <- convert_diff_to_changelog py_float py_str DeepDiff
                        cloud_resource matching_iac ;;
        Ok (mk_item cloud_resource (Some matching_iac) "Modified" change_log)
  end.

Definition analyze (cloud_resources iac_resources : list resource)
  : result analysis_report :=
  analysis_results <-
    map_result (fun cloud_resource =>
                  _analyze_single_resource cloud_resource iac_resources)
               cloud_resources ;;
  Ok (mk_report analysis_results (_generate_summary analysis_results)).

End Analyzer.

(* ================================================================== *)
(** * The structural diff engine *)

Definition nat_to_string (n : nat) : string :=
  NilEmpty.string_of_uint (Nat.to_uint n).

Definition key_path (path k : string) : string :=
  (path ++ "['" ++ k ++ "']")%string.

Definition index_path (path : string) (i : nat) : string :=
  (path ++ "[" ++ nat_to_string i ++ "]")%string.

Definition excluded (excl : list string) (path : string) : bool :=
  existsb (String.eqb path) excl.

Definition merge (a b : diff) : diff :=
  mk_diff (values_changed a ++ values_changed b)
          (dictionary_item_added a ++ dictionary_item_added b)
          (dictionary_item_removed a ++ dictionary_item_removed b)
          (type_changes a ++ type_changes b)
          (iterable_item_added a ++ iterable_item_added b)
          (iterable_item_removed a ++ iterable_item_removed b).

Definition float_same (f g : spec_float) : bool :=
  match f, g with
  | S754_zero s, S754_zero t => Bool.eqb s t
  | S754_infinity s, S754_infinity t => Bool.eqb s t
  | S754_nan, S754_nan => true
  | S754_finite s m e, S754_finite t n d =>
      Bool.eqb s t && Pos.eqb m n && Z.eqb e d
  | _, _ => false
  end.

(** Two elements of sequences are the same element when they have the
    same kind and content, sequences inside them being compared without
    regard to order and mappings without regard to the order of keys. *)
Fixpoint same_element (a b : value) {struct a} : bool :=
  match a, b with
  | VNone, VNone => true
  | VBool x, VBool y => Bool.eqb x y
  | VInt x, VInt y => (x =? y)%Z
  | VFloat f, VFloat g => float_same f g
  | VStr s, VStr t => String.eqb s t
  | VList l, VList m =>
      forallb (fun x => existsb (fun y => same_element x y) m) l
      && forallb (fun y => existsb (fun x => same_element x y) l) m
  | VDict d, VDict e =>
      Nat.eqb (List.length d) (List.length e)
      && forallb (fun kv : string * value =>
                    match dict_get (fst kv) e with
                    | Some w => same_element (snd kv) w
                    | None => false
                    end) d
  | _, _ => false
  end.

(** The elements of [l], with their positions from [i] on, that are the
    same as no element of [others]. *)
Fixpoint unmatched (path : string) (i : nat) (l others : list value)
  : list (string * value) :=
  match l with
  | [] => []
  | x :: l' =>
      (if existsb (fun y => same_element x y) others then []
       else [(index_path path i, x)])
      ++ unmatched path (S i) l' others
  end.

Definition leaf_change (path : string) (same : bool) (old new : value) : diff :=
  if same then empty_diff
  else mk_diff [(path, mk_change new old)] [] [] [] [] [].

(** The keys of the new mapping [e] that the old mapping [d] lacks, as
    paths, without the excluded ones. *)
Definition added_keys (excl : list string) (path : string)
  (d e : list (string * value)) : list string :=
  filter (fun p => negb (excluded excl p))
         (map (fun kv => key_path path (fst kv))
              (filter (fun kv => negb (has_key (fst kv) d)) e)).

Section DiffMapping.

(** The comparison of two values at a path. *)
Variable compare : string -> value -> value -> diff.
Variable excl : list string.
Variable path : string.
(** The new mapping. *)
Variable e : list (string * value).

(** The keys of the old mapping, in order: a key that the new mapping
    has too is compared value against value, a key that it lacks is a
    removed dictionary item. *)
Fixpoint diff_old_keys (d : list (string * value)) : diff :=
  match d with
  | [] => empty_diff
  | (k, v) :: d' =>
      merge
        match dict_get k e with
        | Some w => compare (key_path path k) v w
        | None =>
            if excluded excl (key_path path k) then empty_diff
            else mk_diff [] [] [key_path path k] [] [] []
        end
        (diff_old_keys d')
  end.

End DiffMapping.

(** Modelled from the spec: the structural diff engine (the DeepDiff
    library called with [ignore_order=True]), which is not among the
    sources.  It compares [old] and [new] at [path]: an excluded path is
    not compared; values of different kinds are a type change; mappings
    are compared key by key (a key of one side only is an added or a
    removed dictionary item); sequences are compared as collections
    without order (an element of one side only is an added or a removed
    iterable item, reported under its own index with the element as its
    value, the format that [test_array_differences] observes); scalars of
    one kind that differ are a value change.  The library's further pass
    that pairs an added with a removed element of one sequence is not
    modelled. *)
Fixpoint structural_diff (excl : list string) (path : string)
  (old new : value) {struct old} : diff :=
  if excluded excl path then empty_diff
  else
    match old, new with
    | VNone, VNone => empty_diff
    | VBool x, VBool y => leaf_change path (Bool.eqb x y) old new
    | VInt x, VInt y => leaf_change path (x =? y)%Z old new
    | VFloat f, VFloat g => leaf_change path (float_eqb f g) old new
    | VStr s, VStr t => leaf_change path (String.eqb s t) old new
    | VList l, VList m =>
        mk_diff [] [] [] [] (unmatched path 0 m l) (unmatched path 0 l m)
    | VDict d, VDict e =>
        merge (mk_diff [] (added_keys excl path d e) [] [] [] [])
              (diff_old_keys (structural_diff excl) excl path e d)
    | _, _ => mk_diff [] [] [] [(path, mk_change new old)] [] []
    end.

(** Modelled from the spec: the call
    [DeepDiff(old, new, ignore_order=True, exclude_paths=excl)], a
    comparison that starts at the root marker. *)
Definition DeepDiff_model (old new : value) (excl : list string) : diff :=
  structural_diff excl "root" old new.

(** ** The builtins at concrete inputs

    To evaluate the code at a concrete input the builtins are needed at
    that input only.  [float_of_no_number] is [float()] on texts that
    denote no number (it fails on each); [str_of_basic] is [str()] on
    [None], booleans, integers and texts (floats and containers are not
    formatted).  The inputs evaluated below stay within these domains. *)
Definition float_of_no_number (s : string) : option spec_float := None.

Definition str_of_basic (v : value) : string :=
  match v with
  | VNone => "None"
  | VBool true => "True"
  | VBool false => "False"
  | VInt z => NilEmpty.string_of_int (Z.to_int z)
  | VStr s => s
  | _ => EmptyString
  end.

(* ================================================================== *)
(** * utils.py and analyzer.py: the remaining helpers *)

(** [s.split(sep)] for a separator of one character: the pieces between
    the separators, at least one piece. *)
Fixpoint str_split (sep : ascii) (s : string) : list string :=
  match s with
  | EmptyString => [EmptyString]
  | String c s' =>
      if Ascii.eqb c sep then EmptyString :: str_split sep s'
      else match str_split sep s' with
           | [] => [String c EmptyString]
           | piece :: pieces => String c piece :: pieces
           end
  end.

(** [d[k] = v] on a [dict] with [str] keys: a key already there keeps
    its place. *)
Fixpoint dict_set (k : string) (v : value) (d : list (string * value))
  : list (string * value) :=
  match d with
  | [] => [(k, v)]
  | (k', x) :: d' =>
      if String.eqb k k' then (k', v) :: d' else (k', x) :: dict_set k v d'
  end.

(** The loop of [get_nested_value] from [current] on. *)
Fixpoint get_nested_from (keys : list string) (current : value) : value :=
  match keys with
  | [] => current
  | key :: rest =>
      match current with
      | VDict d =>
          match dict_get key d with
          | Some v => get_nested_from rest v
          | None => VNone
          end
      | _ => VNone
      end
  end.

Definition get_nested_value (obj : resource) (key_path : string) : value :=
  get_nested_from (str_split "." key_path) (VDict obj).

(** [set_nested_value] below the mapping [d], [key] being the next key
    and [rest] the keys after it.  The code updates [d] in place; the
    updated mapping is returned.  A key of the path that is absent gets
    an empty mapping; a key that holds anything but a mapping makes the
    next membership test, subscript or assignment raise [TypeError]
    (before any assignment is made). *)
Fixpoint set_nested_from (key : string) (rest : list string) (v : value)
  (d : list (string * value)) {struct rest} : result (list (string * value)) :=
  match rest with
  | [] => Ok (dict_set key v d)
  | key' :: rest' =>
      match dict_get key d with
      | None =>
          child <- set_nested_from key' rest' v [] ;;
          Ok (dict_set key (VDict child) d)
      | Some (VDict c) =>
          child <- set_nested_from key' rest' v c ;;
          Ok (dict_set key (VDict child) d)
      | Some _ => Raise TypeError
      end
  end.

Definition set_nested_value (obj : resource) (key_path : string) (v : value)
  : result resource :=
  match str_split "." key_path with
  | [] => Ok obj
  | key :: rest => set_nested_from key rest v obj
  end.

(** [d.get(k, default)] *)
Definition get_default (d : list (string * value)) (k : string)
  (default : value) : value :=
  match dict_get k d with
  | Some v => v
  | None => default
  end.

(** [item.get('Key', item.get('key', ''))] and the same for the value. *)
Definition tag_key (item : list (string * value)) : value :=
  get_default item "Key" (get_default item "key" (VStr EmptyString)).

Definition tag_value (item : list (string * value)) : value :=
  get_default item "Value" (get_default item "value" (VStr EmptyString)).

(** The dictionary comprehension of [normalize_tags], over the items left:
    an item that is not a mapping is passed over, a key that cannot be
    hashed raises [TypeError], a key met again keeps its place and takes
    the new value. *)
Fixpoint tags_of_list (m : list (value * value)) (tags : list value)
  : result (list (value * value)) :=
  match tags with
  | [] => Ok m
  | VDict item :: rest =>
      if hashable (tag_key item)
      then tags_of_list (map_set m (tag_key item) (tag_value item)) rest
      else Raise TypeError
  | _ :: rest => tags_of_list m rest
  end.

(** The result is a [dict] whose keys are whatever the items hold under
    ['Key']. *)
Definition normalize_tags (tags : value) : result (list (value * value)) :=
  match tags with
  | VList l => tags_of_list [] l
  | VDict d => Ok (map (fun kv => (VStr (fst kv), snd kv)) d)
  | _ => Ok []
  end.

(** One element of the list returned by [get_detailed_changes]. *)
Record detailed_change : Type := mk_detailed {
  resource_id : value;
  resource_name : value;
  change_ : change_entry
}.

Definition get_detailed_changes (analysis_results : list analysis_item)
  : list detailed_change :=
  flat_map
    (fun result =>
       if String.eqb (State result) "Modified" && negb (is_nil (ChangeLog result))
       then map (fun change =>
                   mk_detailed
                     (get_default (CloudResourceItem result) "id" (VStr "unknown"))
                     (get_default (CloudResourceItem result) "name" (VStr "unknown"))
                     change)
                (ChangeLog result)
       else [])
    analysis_results.

(** ** Notions for the helpers *)

(** The value a [dict] with arbitrary keys holds under a key, if any. *)
Definition map_find (m : list (value * value)) (k : value) : option value :=
  match find (fun kv => py_eq (fst kv) k) m with
  | Some kv => Some (snd kv)
  | None => None
  end.

(** The value of the last tag of the list whose key is the text [k]. *)
Fixpoint last_tag (k : string) (tags : list value) : option value :=
  match tags with
  | [] => None
  | item :: rest =>
      match last_tag k rest with
      | Some v => Some v
      | None =>
          match item with
          | VDict d => if py_eq (tag_key d) (VStr k) then Some (tag_value d)
                       else None
          | _ => None
          end
      end
  end.

(** A tag, when it is a mapping, has a text as its key. *)
Definition text_keyed (item : value) : bool :=
  match item with
  | VDict d => match tag_key d with VStr _ => true | _ => false end
  | _ => true
  end.

(** The text held under an identity field, or nothing there. *)
Definition text_or_absent (v : value) : bool :=
  match v with VNone | VStr _ => true | _ => false end.

(** An element of an array compared by [id]: a mapping whose [id], if
    it has one, is a text. *)
Definition text_id_item (item : value) : bool :=
  match item with
  | VDict d => match dict_get "id" d with
               | None | Some (VStr _) => true
               | Some _ => false
               end
  | _ => false
  end.

(** A mapping without an [id]. *)
Definition no_id_item (item : value) : bool :=
  match item with
  | VDict d => negb (has_key "id" d)
  | _ => false
  end.

Definition has_text_id (s : string) (item : value) : bool :=
  match item with
  | VDict d => match dict_get "id" d with
               | Some (VStr t) => String.eqb t s
               | _ => false
               end
  | _ => false
  end.

(** A value that [for item in v] cannot iterate over. *)
Definition not_iterable (v : value) : bool :=
  match v with
  | VStr _ | VList _ | VDict _ => false
  | _ => true
  end.

(** The number of items that [for item in v] yields. *)
Definition iter_length (v : value) : nat :=
  match v with
  | VStr s => String.length s
  | VList l => List.length l
  | VDict d => List.length d
  | _ => 0
  end.

(** The score that [get_match_confidence] has accumulated when it comes
    to [min(score, 1.0)]. *)
Definition accumulated_score (cloud_resource iac_resource : resource)
  : spec_float :=
  let score := f0_0 in
  let score := if py_eq (resource_type cloud_resource)
                        (resource_type iac_resource)
               then float_add score f0_4 else score in
  let score := if py_eq (get cloud_resource "name") (get iac_resource "name")
               then float_add score f0_4 else score in
  let score := if py_eq (get cloud_resource "region") (get iac_resource "region")
               then float_add score f0_2 else score in
  score.

(** A text that [normalize_value] cannot turn into a number without
    raising: it passes [isdigit] and [int] rejects it. *)
Definition bad_digits (v : value) : bool :=
  match v with
  | VStr s => isdigit s && match py_int s with
                           | Ok _ => false
                           | Raise _ => true
                           end
  | _ => false
  end.

(** The matcher found nothing. *)
Definition found_nothing {A : Type} (o : option A) : bool :=
  match o with
  | None => true
  | Some _ => false
  end.

(** The verdict of [_analyze_single_resource] on a cloud resource, read
    off the matcher and the comparison alone. *)
Definition matched_identical (DeepDiff : value -> value -> list string -> diff)
  (pool : list resource) (cloud : resource) : bool :=
  match find_matching_iac_resource cloud pool with
  | Some iac => _are_resources_identical DeepDiff cloud iac
  | None => false
  end.

(** ** Resources used as examples *)

Definition sample_cloud : list resource :=
  [[("id", VStr "i-1"); ("name", VStr "web"); ("size", VInt 2)];
   [("id", VStr "i-2"); ("name", VStr "db")];
   [("id", VStr "i-3"); ("name", VStr "cache")]].

Definition sample_iac : list resource :=
  [[("id", VStr "i-1"); ("name", VStr "web"); ("size", VInt 1)];
   [("id", VStr "i-2"); ("name", VStr "db")]].

Definition sample_report : analysis_report :=
  mk_report
    [mk_item [("id", VStr "i-1"); ("name", VStr "web"); ("size", VInt 2)]
             (Some [("id", VStr "i-1"); ("name", VStr "web"); ("size", VInt 1)])
             "Modified" [mk_entry "size" (VInt 2) (VInt 1)];
     mk_item [("id", VStr "i-2"); ("name", VStr "db")]
             (Some [("id", VStr "i-2"); ("name", VStr "db")])
             "Match" [];
     mk_item [("id", VStr "i-3"); ("name", VStr "cache")]
             None "Missing" []]
    (mk_summary 3 1 1 1).

(* ================================================================== *)
(** * Notions used to state the properties *)

(** ** Texts, scores and matches *)

(** The superscript two, U+00B2. *)
Definition superscript_two : string := String (ascii_of_nat 178) EmptyString.

Definition is_none (v : value) : bool :=
  match v with VNone => true | _ => false end.

(** The contribution test as the specification words it: the field is
    present and non-null on both sides and the values are equal. *)
Definition present_and_equal (a b : value) : bool :=
  negb (is_none a) && negb (is_none b) && py_eq a b.

(** The score as the specification words it. *)
Definition spec_match_confidence (cloud iac : resource) : spec_float :=
  if existsb (fun field =>
                match dict_get field cloud, dict_get field iac with
                | Some v, Some w => py_eq v w
                | _, _ => false
                end) id_fields
  then f1_0
  else
    let score := f0_0 in
    let score := if present_and_equal (resource_type cloud) (resource_type iac)
                 then float_add score f0_4 else score in
    let score := if present_and_equal (get cloud "name") (get iac "name")
                 then float_add score f0_4 else score in
    let score := if present_and_equal (get cloud "region") (get iac "region")
                 then float_add score f0_2 else score in
    float_min score f1_0.

(** [r] is the first element of [l], in order, that passes [p]. *)
Definition first_hit {A : Type} (p : A -> bool) (l : list A) (r : A) : Prop :=
  exists l1 l2, l = l1 ++ r :: l2 /\ p r = true /\
                forall x, In x l1 -> p x = false.

(** [r] is the first element of [l], in order, of which [P] holds. *)
Definition first_such {A : Type} (P : A -> Prop) (l : list A) (r : A) : Prop :=
  exists l1 l2, l = l1 ++ r :: l2 /\ P r /\ forall x, In x l1 -> ~ P x.

(** The tests of the three tiers, on the fields of the two resources.
    Identity: the candidate holds, under one of the three identity
    fields, a value equal to a non-empty identity value of the cloud
    resource (one that is not null, false, zero or empty). *)
Definition shares_identity (cloud candidate : resource) : Prop :=
  exists f1 f2 w,
    In f1 ["id"; "resource_id"; "arn"] /\ In f2 ["id"; "resource_id"; "arn"] /\
    truthy (get cloud f1) = true /\
    dict_get f2 candidate = Some w /\ py_eq w (get cloud f1) = true.

(** Type and name: the type, read under [type] or else [resourceType],
    and the name are equal. *)
Definition same_type_and_name (cloud candidate : resource) : Prop :=
  py_eq (py_or (get candidate "type") (get candidate "resourceType"))
        (py_or (get cloud "type") (get cloud "resourceType")) = true /\
  py_eq (get candidate "name") (get cloud "name") = true.

Definition same_name_and_region (cloud candidate : resource) : Prop :=
  py_eq (get candidate "name") (get cloud "name") = true /\
  py_eq (get candidate "region") (get cloud "region") = true.

Definition same_name (cloud candidate : resource) : Prop :=
  py_eq (get candidate "name") (get cloud "name") = true.

(** The three states of an analysis item. *)
Definition known_state (s : string) : Prop :=
  s = "Match" \/ s = "Modified" \/ s = "Missing".

(** Where an entry with no value on either side comes from: a value
    change whose two values are null, or an iterable item that is null. *)
Inductive null_entry_origin (d : diff) (e : change_entry) : Prop :=
| null_value_change (path : string) (c : change) :
    In (path, c) (values_changed d) ->
    new_value c = VNone -> old_value c = VNone ->
    KeyName e = _convert_path_to_key_name path ->
    null_entry_origin d e
| null_item_added (path : string) (v : value) (items : list value) :
    In (path, v) (iterable_item_added d) ->
    py_iter v = Ok items -> In VNone items ->
    KeyName e = (_convert_path_to_key_name path ++ "[+]")%string ->
    null_entry_origin d e
| null_item_removed (path : string) (v : value) (items : list value) :
    In (path, v) (iterable_item_removed d) ->
    py_iter v = Ok items -> In VNone items ->
    KeyName e = (_convert_path_to_key_name path ++ "[-]")%string ->
    null_entry_origin d e.

(** ** Resources used as examples *)

(** A security group whose rules gain the rule [[null]]. *)
Definition group_cloud : resource :=
  [("name", VStr "web"); ("rules", VList [VList [VStr "tcp"]; VList [VNone]])].
Definition group_iac : resource :=
  [("name", VStr "web"); ("rules", VList [VList [VStr "tcp"]])].

(** An instance whose open ports gain a number. *)
Definition ports_cloud : resource :=
  [("name", VStr "web"); ("ports", VList [VInt 80; VInt 443])].
Definition ports_iac : resource :=
  [("name", VStr "web"); ("ports", VList [VInt 80])].

(** An instance whose tags gain the empty text. *)
Definition tags_cloud : resource :=
  [("name", VStr "web"); ("tags", VList [VStr "prod"; VStr EmptyString])].
Definition tags_iac : resource :=
  [("name", VStr "web"); ("tags", VList [VStr "prod"])].

(** ** Paths *)

(** A segment of a path: a key of a mapping or an index of a sequence. *)
Inductive segment : Type :=
| Key (k : string)
| Index (i : nat).

Definition segment_text (s : segment) : string :=
  match s with
  | Key k => k
  | Index i => nat_to_string i
  end.

Definition render_segment (s : segment) : string :=
  match s with
  | Key k => ("['" ++ k ++ "']")%string
  | Index i => ("[" ++ nat_to_string i ++ "]")%string
  end.

Fixpoint render_segments (segs : list segment) : string :=
  match segs with
  | [] => EmptyString
  | s :: rest => (render_segment s ++ render_segments rest)%string
  end.

(** The bracketed path of the diff engine: the root marker, then the
    segments. *)
Definition render_path (segs : list segment) : string :=
  ("root" ++ render_segments segs)%string.

(** The segments joined with dots. *)
Definition dotted (segs : list segment) : string :=
  String.concat "." (map segment_text segs).

(** A character other than the quote and the two brackets. *)
Definition plain_char (c : ascii) : bool :=
  negb (Ascii.eqb c "'") && negb (Ascii.eqb c "[") && negb (Ascii.eqb c "]").

Definition plain (s : string) : bool := string_forallb plain_char s.

Definition plain_segment (s : segment) : bool :=
  match s with
  | Key k => plain k
  | Index _ => true
  end.

Definition is_key (s : segment) : bool :=
  match s with Key _ => true | Index _ => false end.

(** ** The path between its segments

    After the first key, a path is the texts of its segments separated by
    junctions (the closing punctuation of a segment and the opening one
    of the next) and ended by the closing punctuation of the last.  [J]
    gives the junction between a segment and the next, [E] the end; both
    depend on whether the segments are keys. *)
Fixpoint body (J : bool -> bool -> string) (E : bool -> string)
  (prev : bool) (segs : list segment) : string :=
  match segs with
  | [] => E prev
  | s :: rest =>
      (J prev (is_key s) ++ segment_text s ++ body J E (is_key s) rest)%string
  end.

Fixpoint last_is_key (prev : bool) (segs : list segment) : bool :=
  match segs with
  | [] => prev
  | s :: rest => last_is_key (is_key s) rest
  end.

Definition closing (k : bool) : string := if k then "']" else "]".
Definition opening (k : bool) : string := if k then "['" else "[".

(** The junctions and ends of a path as rendered, ... *)
Definition J_rendered (p k : bool) : string := (closing p ++ opening k)%string.
Definition E_rendered (p : bool) : string := closing p.
(** ... once a final ['] is cut, ... *)
Definition E_cut (p : bool) : string := if p then EmptyString else "]".
(** ... once ['][']  is replaced, ... *)
Definition J_keys (p k : bool) : string :=
  if p && k then "." else J_rendered p k.
(** ... once [][] is replaced, ... *)
Definition J_brackets (p k : bool) : string :=
  ((if p && negb k then "'" else EmptyString) ++ "."
   ++ (if negb p && k then "'" else EmptyString))%string.
(** ... and once the punctuation left is removed. *)
Definition J_dot (p k : bool) : string := ".".
Definition E_none (p : bool) : string := EmptyString.

Definition head_not (c : ascii) (s : string) : Prop :=
  match s with
  | EmptyString => True
  | String a _ => a <> c
  end.

(** What follows a junction: the text of a key does not start with a
    closing bracket, the text of an index does not start with a quote. *)
Definition next_ok (k : bool) (x : string) : Prop :=
  head_not (if k then "]"%char else "'"%char) x.

(** ** JSON values *)

(** Induction on values, with the hypothesis on every element of a
    sequence and every value of a mapping. *)
Section ValueInduction.

Variable P : value -> Prop.
Hypothesis P_none : P VNone.
Hypothesis P_bool : forall b, P (VBool b).
Hypothesis P_int : forall z, P (VInt z).
Hypothesis P_float : forall f, P (VFloat f).
Hypothesis P_str : forall s, P (VStr s).
Hypothesis P_list : forall l, Forall P l -> P (VList l).
Hypothesis P_dict : forall d, Forall (fun kv => P (snd kv)) d -> P (VDict d).

Fixpoint value_induction (v : value) : P v :=
  match v with
  | VNone => P_none
  | VBool b => P_bool b
  | VInt z => P_int z
  | VFloat f => P_float f
  | VStr s => P_str s
  | VList l =>
      P_list l
        ((fix elements (l : list value) : Forall P l :=
            match l with
            | [] => Forall_nil P
            | x :: l' => Forall_cons x (value_induction x) (elements l')
            end) l)
  | VDict d =>
      P_dict d
        ((fix entries (d : list (string * value))
            : Forall (fun kv => P (snd kv)) d :=
            match d with
            | [] => Forall_nil _
            | kv :: d' => Forall_cons kv (value_induction (snd kv)) (entries d')
            end) d)
  end.

End ValueInduction.

Fixpoint distinct (keys : list string) : bool :=
  match keys with
  | [] => true
  | k :: rest => negb (existsb (String.eqb k) rest) && distinct rest
  end.

Definition is_nan (f : spec_float) : bool :=
  match f with S754_nan => true | _ => false end.

(** A JSON value: the keys of every mapping are distinct and no number
    is the NaN (which is equal to nothing, itself included). *)
Fixpoint json_value (v : value) : bool :=
  match v with
  | VFloat f => negb (is_nan f)
  | VList l => forallb json_value l
  | VDict d =>
      distinct (map fst d) && forallb (fun kv => json_value (snd kv)) d
  | _ => true
  end.






(* ================================================================== *)
(** * The Value Normalizer *)

Section NormalizeFacts.

Variable py_float : string -> option spec_float.

Lemma normalize_value_non_text (v : value) :
  (forall s, v <> VStr s) -> normalize_value py_float v = Ok v.
Proof.
  intros Hv. destruct v; try reflexivity. now elim (Hv s).
Qed.

Lemma is_ascii_digit_is_digit_char (c : ascii) :
  is_ascii_digit c = true -> is_digit_char c = true.
Proof. unfold is_digit_char. now intros ->. Qed.

Lemma ascii_digits_isdigit (s : string) :
  s <> EmptyString -> string_forallb is_ascii_digit s = true -> isdigit s = true.
Proof.
  intros Hs H. destruct s as [|c s]; [congruence|].
  unfold isdigit. revert H. generalize (String c s). clear.
  induction s as [|c s IH]; simpl; [reflexivity|].
  intros [Hc Hs]%andb_true_iff.
  now rewrite (is_ascii_digit_is_digit_char _ Hc), IH.
Qed.

(** A non-empty text of ASCII digits becomes the integer it denotes,
    unless it has more digits than [int] accepts. *)
Lemma normalize_value_ascii_digits (s : string) :
  s <> EmptyString -> string_forallb is_ascii_digit s = true ->
  normalize_value py_float (VStr s) =
    if (Z.of_nat (String.length s) <=? int_max_str_digits)%Z
    then Ok (VInt (decimal_value 0 s))
    else Raise ValueError.
Proof.
  intros Hs H. unfold normalize_value, py_int.
  rewrite (ascii_digits_isdigit s Hs H), H.
  destruct s; [congruence|]. cbn [andb].
  now destruct (Z.of_nat (String.length (String a s)) <=? int_max_str_digits)%Z.
Qed.

(** Any other text for which [isdigit] fails goes through [float]. *)
Lemma normalize_value_not_isdigit (s : string) :
  isdigit s = false ->
  normalize_value py_float (VStr s) =
    match py_float s with
    | Some f => Ok (VFloat f)
    | None => Ok (VStr s)
    end.
Proof. intros H. unfold normalize_value. now rewrite H. Qed.

End NormalizeFacts.

(** C6 (the code at the failing input).  The text made of the single
    character U+00B2 passes [isdigit] and is handed to [int], outside the
    [try]: [normalize_value] raises [ValueError], whatever [float] would
    have made of the text, although no character of it is an ASCII digit. *)
Theorem normalize_value_raises_on_superscript_digit :
  forall py_float : string -> option spec_float,
    isdigit superscript_two = true /\
    string_forallb is_ascii_digit superscript_two = false /\
    normalize_value py_float (VStr superscript_two) = Raise ValueError.
Proof. intros py_float. repeat split. Qed.

(** C10.  The normalizer is idempotent: normalizing the outcome of a
    normalization changes nothing, an outcome being a value or the
    exception raised. *)
Theorem normalize_value_idempotent :
  forall (py_float : string -> option spec_float) (v : value),
    (w <- normalize_value py_float v ;; normalize_value py_float w)
    = normalize_value py_float v.
Proof.
  intros py_float v. destruct v; try reflexivity.
  cbn [normalize_value].
  destruct (isdigit s) eqn:Hd.
  - destruct (py_int s); reflexivity.
  - destruct (py_float s) eqn:Hf; cbn [bind normalize_value]; [reflexivity|].
    now rewrite Hd, Hf.
Qed.

(* ================================================================== *)
(** * Match confidence *)

(** The literals are the binary64 numbers nearest to 0.2, 0.4 and 1. *)
Lemma literals_nearest :
  (Z.abs (10 * 7205759403792794 - 2 * 2 ^ 55) <= 5)%Z /\
  (Z.abs (10 * 7205759403792794 - 4 * 2 ^ 54) <= 5)%Z /\
  (4503599627370496 = 2 ^ 52)%Z.
Proof. repeat split; vm_compute; congruence. Qed.

(** The score is one of six numbers, all between 0 and 1. *)
Lemma get_match_confidence_range (cloud iac : resource) :
  SFleb f0_0 (get_match_confidence cloud iac) = true /\
  SFleb (get_match_confidence cloud iac) f1_0 = true.
Proof.
  unfold get_match_confidence.
  destruct (id_pair_hit cloud iac); [split; reflexivity|].
  destruct (py_eq (resource_type cloud) (resource_type iac));
    destruct (py_eq (get cloud "name") (get iac "name"));
    destruct (py_eq (get cloud "region") (get iac "region"));
    split; vm_compute; reflexivity.
Qed.

(** An identity value shared by the two sides gives 1.0 at once. *)
Lemma get_match_confidence_identity (cloud iac : resource) :
  id_pair_hit cloud iac = true -> get_match_confidence cloud iac = f1_0.
Proof. unfold get_match_confidence. now intros ->. Qed.

(** C5 (the code at the failing input).  Two resources that share no
    field but differ in their names: the absent types and the absent
    regions compare equal as [None == None], and the code returns
    0.4 + 0.2 where the specification's score is 0. *)
Theorem get_match_confidence_counts_absent_fields :
  let cloud := [("name", VStr "web")] in
  let iac := [("name", VStr "db")] in
  get_match_confidence cloud iac = S754_finite false 5404319552844596 (-53) /\
  get_match_confidence cloud iac = float_add f0_4 f0_2 /\
  spec_match_confidence cloud iac = f0_0 /\
  get_match_confidence cloud iac <> spec_match_confidence cloud iac.
Proof. repeat split; vm_compute; congruence. Qed.

(* ================================================================== *)
(** * The Resource Matcher *)

Lemma find_first_hit {A : Type} (p : A -> bool) (l : list A) (r : A) :
  find p l = Some r <-> first_hit p l r.
Proof.
  split.
  - induction l as [|a l IH]; simpl; [discriminate|].
    destruct (p a) eqn:Ha.
    + intros [= ->]. exists [], l. repeat split; [assumption | intros x []].
    + intros H. destruct (IH H) as (l1 & l2 & -> & Hr & Hl1).
      exists (a :: l1), l2. repeat split; [assumption|].
      intros x [<- | Hx]; [assumption | now apply Hl1].
  - intros (l1 & l2 & -> & Hr & Hl1).
    induction l1 as [|a l1 IH]; simpl.
    + now rewrite Hr.
    + rewrite (Hl1 a (or_introl eq_refl)). apply IH.
      intros x Hx. apply Hl1. now right.
Qed.

Lemma find_none_iff {A : Type} (p : A -> bool) (l : list A) :
  find p l = None <-> forall x, In x l -> p x = false.
Proof.
  split; [apply find_none|].
  induction l as [|a l IH]; simpl; [reflexivity|].
  intros H. rewrite (H a (or_introl eq_refl)). apply IH.
  intros x Hx. apply H. now right.
Qed.

Lemma first_hit_unique {A : Type} (p : A -> bool) (l : list A) (r r' : A) :
  first_hit p l r -> first_hit p l r' -> r = r'.
Proof.
  intros H H'. apply find_first_hit in H, H'. congruence.
Qed.

Lemma py_eq_none_l (x : value) : py_eq VNone x = true -> x = VNone.
Proof. destruct x; simpl; congruence. Qed.

Lemma truthy_not_none (x : value) : truthy x = true -> x <> VNone.
Proof. intros H ->. discriminate. Qed.

(** A candidate that passes a tier's test has the field tested, so it
    is not the empty [dict] and the [if ..._match:] tests let it through. *)
Lemma primary_hit_nonempty (cloud r : resource) :
  primary_hit cloud r = true -> truthy (VDict r) = true.
Proof. destruct r; [discriminate | reflexivity]. Qed.

Lemma name_hit_nonempty (cloud r : resource) :
  truthy (get cloud "name") = true ->
  name_hit cloud r = true -> truthy (VDict r) = true.
Proof.
  intros Hn H. destruct r; [|reflexivity].
  apply py_eq_none_l in H. now elim (truthy_not_none _ Hn).
Qed.

Lemma secondary_hit_name (cloud r : resource) :
  secondary_hit cloud r = true -> name_hit cloud r = true.
Proof. unfold secondary_hit. now intros [_ H]%andb_true_iff. Qed.

Lemma name_region_hit_name (cloud r : resource) :
  name_region_hit cloud r = true -> name_hit cloud r = true.
Proof. unfold name_region_hit. now intros [H _]%andb_true_iff. Qed.

Lemma secondary_match_spec (cloud : resource) (pool : list resource) (r : resource) :
  _secondary_match cloud pool = Some r <->
  truthy (resource_type cloud) = true /\ truthy (get cloud "name") = true /\
  first_hit (secondary_hit cloud) pool r.
Proof.
  unfold _secondary_match. rewrite <- find_first_hit.
  destruct (truthy (resource_type cloud)), (truthy (get cloud "name")); simpl;
    intuition congruence.
Qed.

Lemma tertiary_match_spec (cloud : resource) (pool : list resource) (r : resource) :
  _tertiary_match cloud pool = Some r <->
  truthy (get cloud "name") = true /\
  ((truthy (get cloud "region") = true /\
    first_hit (name_region_hit cloud) pool r) \/
   ((truthy (get cloud "region") = false \/
     forall x, In x pool -> name_region_hit cloud x = false) /\
    first_hit (name_hit cloud) pool r)).
Proof.
  unfold _tertiary_match. rewrite <- !find_first_hit, <- find_none_iff.
  destruct (truthy (get cloud "name")); simpl; [|intuition congruence].
  destruct (truthy (get cloud "region")).
  - destruct (find (name_region_hit cloud) pool) as [r'|];
      intuition congruence.
  - intuition congruence.
Qed.

Lemma secondary_match_truthy (cloud : resource) (pool : list resource) (r : resource) :
  _secondary_match cloud pool = Some r -> truthy (VDict r) = true.
Proof.
  intros (_ & Hn & (_ & _ & _ & Hr & _))%secondary_match_spec.
  eauto using name_hit_nonempty, secondary_hit_name.
Qed.

Lemma tertiary_match_truthy (cloud : resource) (pool : list resource) (r : resource) :
  _tertiary_match cloud pool = Some r -> truthy (VDict r) = true.
Proof.
  intros (Hn & [(_ & (_ & _ & _ & Hr & _)) | (_ & (_ & _ & _ & Hr & _))])%tertiary_match_spec;
    eauto using name_hit_nonempty, name_region_hit_name.
Qed.

(** The cascade: the first tier that yields a candidate decides. *)
Lemma find_matching_cascade (cloud : resource) (pool : list resource) :
  find_matching_iac_resource cloud pool =
    match _primary_match cloud pool with
    | Some r => Some r
    | None =>
        match _secondary_match cloud pool with
        | Some r => Some r
        | None => _tertiary_match cloud pool
        end
    end.
Proof.
  unfold find_matching_iac_resource.
  destruct (_primary_match cloud pool) as [r|] eqn:H1; cbn [match_truthy].
  - apply find_some in H1 as [_ H1].
    now rewrite (primary_hit_nonempty _ _ H1).
  - destruct (_secondary_match cloud pool) as [r|] eqn:H2; cbn [match_truthy].
    + now rewrite (secondary_match_truthy _ _ _ H2).
    + destruct (_tertiary_match cloud pool) as [r|] eqn:H3; cbn [match_truthy].
      * now rewrite (tertiary_match_truthy _ _ _ H3).
      * reflexivity.
Qed.

(** A non-empty identity value of the cloud resource found under an
    identity field of a candidate passes the identity tier's test. *)
Lemma shared_identity_primary_hit (cloud a : resource) (f1 f2 : string) (w : value) :
  In f1 id_fields -> In f2 id_fields ->
  truthy (get cloud f1) = true ->
  dict_get f2 a = Some w -> py_eq w (get cloud f1) = true ->
  primary_hit cloud a = true.
Proof.
  intros H1 H2 Ht Hw He. unfold primary_hit.
  apply existsb_exists. exists f2. split; [assumption|]. rewrite Hw.
  unfold py_in. apply existsb_exists. exists (get cloud f1). split; [|assumption].
  unfold cloud_ids. apply in_map, filter_In. now split.
Qed.

Lemma first_hit_such {A : Type} (p : A -> bool) (P : A -> Prop) (l : list A)
  (r : A) :
  (forall x, p x = true <-> P x) ->
  first_hit p l r <-> first_such P l r.
Proof.
  intros H. unfold first_hit, first_such.
  split; intros (l1 & l2 & Hl & Hr & Hb); exists l1, l2;
    (split; [assumption|]); (split; [now apply H|]); intros x Hx.
  - intros Hp. apply H in Hp. rewrite (Hb x Hx) in Hp. discriminate.
  - destruct (p x) eqn:E; [|reflexivity]. apply H in E. now elim (Hb x Hx).
Qed.

Lemma primary_hit_shares_identity (cloud c : resource) :
  primary_hit cloud c = true <-> shares_identity cloud c.
Proof.
  split.
  - unfold primary_hit. intros (f2 & H2 & Hf)%existsb_exists.
    destruct (dict_get f2 c) as [w|] eqn:Hw; [|discriminate].
    unfold py_in in Hf. apply existsb_exists in Hf as (x & Hx & He).
    unfold cloud_ids in Hx. apply in_map_iff in Hx as (f1 & <- & Hf1).
    apply filter_In in Hf1 as [H1 Ht].
    exists f1, f2, w. auto.
  - intros (f1 & f2 & w & H1 & H2 & Ht & Hw & He).
    exact (shared_identity_primary_hit _ _ _ _ _ H1 H2 Ht Hw He).
Qed.

Lemma secondary_hit_same_type_and_name (cloud c : resource) :
  secondary_hit cloud c = true <-> same_type_and_name cloud c.
Proof. unfold secondary_hit, same_type_and_name, resource_type. apply andb_true_iff. Qed.

Lemma name_region_hit_same (cloud c : resource) :
  name_region_hit cloud c = true <-> same_name_and_region cloud c.
Proof. unfold name_region_hit, same_name_and_region. apply andb_true_iff. Qed.

Lemma name_hit_same_name (cloud c : resource) :
  name_hit cloud c = true <-> same_name cloud c.
Proof. reflexivity. Qed.

(** C3, as amended.  [find_matching_iac_resource] applies the identity
    tier, then the type+name tier, then the name(+region) tier, and
    returns the result of the first that yields one; each tier returns
    the first candidate, in input order, that passes its test.  The test
    of the identity tier is to hold, under [id], [resource_id] or [arn],
    a value equal to a non-empty identity value of the cloud resource;
    that of the second, which needs a cloud resource with a non-empty
    type and name, is to have its type and its name; the third, which
    needs a non-empty name, takes the first candidate with the name and
    the region of the cloud resource when that has a region and, failing
    that, the first with its name.  In particular a cloud resource that
    shares a non-empty identity value with a candidate gets the first
    candidate of the identity tier, whatever type and name other
    candidates share with it. *)
Theorem find_matching_iac_resource_precedence :
  forall (cloud : resource) (pool : list resource),
    find_matching_iac_resource cloud pool =
      match _primary_match cloud pool with
      | Some r => Some r
      | None =>
          match _secondary_match cloud pool with
          | Some r => Some r
          | None => _tertiary_match cloud pool
          end
      end
    /\ (forall r, _primary_match cloud pool = Some r <->
                  first_such (shares_identity cloud) pool r)
    /\ (forall r, _secondary_match cloud pool = Some r <->
                  truthy (py_or (get cloud "type") (get cloud "resourceType"))
                  = true /\
                  truthy (get cloud "name") = true /\
                  first_such (same_type_and_name cloud) pool r)
    /\ (forall r, _tertiary_match cloud pool = Some r <->
                  truthy (get cloud "name") = true /\
                  ((truthy (get cloud "region") = true /\
                    first_such (same_name_and_region cloud) pool r) \/
                   ((truthy (get cloud "region") = false \/
                     forall x, In x pool -> ~ same_name_and_region cloud x) /\
                    first_such (same_name cloud) pool r)))
    /\ (forall a : resource,
           In a pool -> shares_identity cloud a ->
           exists r, find_matching_iac_resource cloud pool = Some r /\
                     first_such (shares_identity cloud) pool r).
Proof.
  intros cloud pool. split; [apply find_matching_cascade|].
  assert (H1 : forall r, _primary_match cloud pool = Some r <->
                         first_such (shares_identity cloud) pool r).
  { intros r. unfold _primary_match. rewrite find_first_hit.
    apply first_hit_such, primary_hit_shares_identity. }
  split; [exact H1|].
  split.
  { intros r. rewrite secondary_match_spec.
    rewrite (first_hit_such _ _ _ _ (secondary_hit_same_type_and_name cloud)).
    reflexivity. }
  split.
  { intros r. rewrite tertiary_match_spec.
    rewrite (first_hit_such _ _ _ _ (name_region_hit_same cloud)).
    rewrite (first_hit_such _ _ _ _ (name_hit_same_name cloud)).
    assert (Hn : (forall x, In x pool -> name_region_hit cloud x = false) <->
                 (forall x, In x pool -> ~ same_name_and_region cloud x)).
    { split; intros H x Hx.
      - intros Hs. apply name_region_hit_same in Hs.
        rewrite (H x Hx) in Hs. discriminate.
      - destruct (name_region_hit cloud x) eqn:E; [|reflexivity].
        apply name_region_hit_same in E. now elim (H x Hx). }
    rewrite Hn. reflexivity. }
  intros a Ha Hs. apply primary_hit_shares_identity in Hs.
  rewrite find_matching_cascade.
  destruct (_primary_match cloud pool) as [r|] eqn:Hf.
  - exists r. split; [reflexivity | now apply H1].
  - unfold _primary_match in Hf. rewrite find_none_iff in Hf.
    rewrite (Hf a Ha) in Hs. discriminate.
Qed.

(** The scenario of the specification: the first candidate shares type
    and name with the cloud resource, the second its [id]. *)
Lemma find_matching_iac_resource_precedence_witness :
  let cloud := [("id", VStr "ec2-123"); ("type", VStr "aws_ec2_instance");
                ("name", VStr "web-server")] in
  let by_name := [("id", VStr "ec2-456"); ("type", VStr "aws_ec2_instance");
                  ("name", VStr "web-server")] in
  let by_id := [("arn", VStr "ec2-123"); ("name", VStr "db-server")] in
  same_type_and_name cloud by_name /\
  find_matching_iac_resource cloud [by_name; by_id] = Some by_id /\
  exists r, find_matching_iac_resource cloud [by_name; by_id] = Some r /\
            first_such (shares_identity cloud) [by_name; by_id] r.
Proof.
  intros cloud by_name by_id.
  split; [split; reflexivity|]. split; [reflexivity|].
  apply (proj2 (proj2 (proj2 (proj2
           (find_matching_iac_resource_precedence cloud [by_name; by_id]))))
           by_id); [simpl; auto|].
  exists "id", "arn", (VStr "ec2-123"). simpl. auto 10.
Defined.

(** C3 (counterexample).  The cloud resource and the first candidate have
    the same [id], the empty text, and the second candidate has the type
    and the name of the cloud resource.  The identity tier collects the
    non-empty identity values only ([if cloud_resource.get(field)]): the
    candidate of the type+name tier is returned, not the one that shares
    the [id]. *)
Lemma find_matching_iac_resource_empty_identity :
  let cloud := [("id", VStr EmptyString); ("type", VStr "aws_ec2_instance");
                ("name", VStr "web-server")] in
  let by_id := [("id", VStr EmptyString); ("name", VStr "db-server")] in
  let by_name := [("type", VStr "aws_ec2_instance"); ("name", VStr "web-server")] in
  dict_get "id" cloud = Some (VStr EmptyString) /\
  dict_get "id" by_id = Some (VStr EmptyString) /\
  same_type_and_name cloud by_name /\
  cloud_ids cloud = [] /\
  find_matching_iac_resource cloud [by_id; by_name] = Some by_name /\
  find_matching_iac_resource cloud [by_id; by_name] <> Some by_id.
Proof. repeat split. discriminate. Qed.

(** What counts as empty is what Python takes for false: a shared [id]
    that is the number 0 is not collected either. *)
Example zero_identity_value_not_collected :
  let cloud := [("id", VInt 0); ("type", VStr "aws_ec2_instance");
                ("name", VStr "web-server")] in
  let by_id := [("id", VInt 0); ("name", VStr "db-server")] in
  let by_name := [("type", VStr "aws_ec2_instance"); ("name", VStr "web-server")] in
  cloud_ids cloud = [] /\
  find_matching_iac_resource cloud [by_id; by_name] = Some by_name.
Proof. split; reflexivity. Qed.


(* ================================================================== *)
(** * Arrays compared by [id] *)

(** The guard looks at the first element of each array only. *)
Lemma id_matching_guard_false (cloud_array iac_array : list value) :
  id_matching_guard cloud_array iac_array = false <->
  cloud_array = [] \/ iac_array = [] \/
  (exists x rest, cloud_array = x :: rest /\ is_dict x = false) \/
  (exists y rest, iac_array = y :: rest /\ is_dict y = false).
Proof.
  unfold id_matching_guard. split.
  - destruct cloud_array as [|x c]; [now left|].
    destruct iac_array as [|y i]; [now right; left|].
    intros [H | H]%andb_false_iff; right; right; [left | right]; eauto.
  - intros [-> | [-> | [(x & c & -> & Hx) | (y & i & -> & Hy)]]].
    + reflexivity.
    + now destruct cloud_array.
    + destruct iac_array; [reflexivity | now rewrite Hx].
    + destruct cloud_array; [reflexivity | now rewrite Hy, andb_false_r].
Qed.

(** X30.  What the guard does select: when either array is empty or its
    first element is not a mapping, the comparison returns exactly the
    one whole-array entry, whatever the diff engine and the formatting
    of identifiers are: neither is consulted, no identity matching takes
    place. *)
Theorem compare_arrays_whole_array_entry :
  forall (py_str : value -> string)
         (DeepDiff : value -> value -> list string -> diff)
         (cloud_array iac_array : list value) (array_path : string),
    cloud_array = [] \/ iac_array = [] \/
    (exists x rest, cloud_array = x :: rest /\ is_dict x = false) \/
    (exists y rest, iac_array = y :: rest /\ is_dict y = false) ->
    compare_arrays_with_id_matching py_str DeepDiff cloud_array iac_array array_path
    = Ok [mk_entry array_path (VList cloud_array) (VList iac_array)].
Proof.
  intros py_str DeepDiff cloud_array iac_array array_path H.
  apply id_matching_guard_false in H.
  unfold compare_arrays_with_id_matching. now rewrite H.
Qed.

(** The arrays of [test_compare_arrays_without_id_matching]. *)
Lemma compare_arrays_whole_array_entry_witness :
  let cloud_array := [VStr "item1"; VStr "item2"; VStr "item3"] in
  let iac_array := [VStr "item1"; VStr "item2"] in
  compare_arrays_with_id_matching str_of_basic DeepDiff_model
    cloud_array iac_array "simple_array"
  = Ok [mk_entry "simple_array" (VList cloud_array) (VList iac_array)].
Proof.
  intros cloud_array iac_array.
  apply (compare_arrays_whole_array_entry str_of_basic DeepDiff_model
           cloud_array iac_array).
  right; right; left. exists (VStr "item1"), [VStr "item2"; VStr "item3"].
  split; reflexivity.
Defined.

(** C9 (the code at the failing input).  The cloud array contains an
    element that is not a mapping, after a first element that is one.
    The guard, which its comment describes as a check that the arrays
    contain objects with id fields, looks at the first element of each
    array only: identity matching runs, finds no [id] at all and emits
    no entry for two arrays that differ, where the claim asks for the
    whole-array entry. *)
Theorem compare_arrays_later_non_mapping :
  let cloud_array := [VDict [("name", VStr "web")]; VStr "web"] in
  let iac_array := [VDict [("name", VStr "web")]] in
  existsb (fun x => negb (is_dict x)) cloud_array = true /\
  compare_arrays_with_id_matching str_of_basic DeepDiff_model
    cloud_array iac_array "rules" = Ok [] /\
  compare_arrays_with_id_matching str_of_basic DeepDiff_model
    cloud_array iac_array "rules"
  <> Ok [mk_entry "rules" (VList cloud_array) (VList iac_array)].
Proof. repeat split. discriminate. Qed.

(* ================================================================== *)
(** * The ChangeLog of a diff *)

Lemma for_each_in {A B : Type} (body : A -> result (list B)) (l : list A)
  (out : list B) (e : B) :
  for_each body l = Ok out -> In e out ->
  exists a out', In a l /\ body a = Ok out' /\ In e out'.
Proof.
  revert out. induction l as [|a l IH]; simpl; intros out H He.
  - injection H as <-. destruct He.
  - destruct (body a) as [o|] eqn:Hb; [|discriminate].
    destruct (for_each body l) as [rest|] eqn:Hr; [|discriminate].
    injection H as <-. apply in_app_or in He as [He | He].
    + exists a, o. auto.
    + destruct (IH rest eq_refl He) as (a' & o' & Ha & Hb' & He').
      exists a', o'. auto.
Qed.

Lemma normalize_value_none (py_float : string -> option spec_float) (v : value) :
  normalize_value py_float v = Ok VNone -> v = VNone.
Proof.
  destruct v; simpl; try congruence.
  destruct (isdigit s).
  - destruct (py_int s); simpl; congruence.
  - destruct (py_float s); congruence.
Qed.

Section ChangeLogFacts.

Variable py_float : string -> option spec_float.
Variable py_str : value -> string.
Variable DeepDiff : value -> value -> list string -> diff.

Lemma process_diff_null_entry (d : diff) (log : list change_entry)
  (e : change_entry) :
  process_diff py_float py_str d = Ok log -> In e log ->
  CloudValue e = VNone -> IacValue e = VNone ->
  null_entry_origin d e.
Proof.
  unfold process_diff, _process_values_changed, _process_dictionary_item_added,
    _process_dictionary_item_removed, _process_type_changes,
    _process_iterable_item_added, _process_iterable_item_removed.
  intros H He Hc Hi.
  destruct (for_each _ (values_changed d)) as [vc|] eqn:Hvc;
    cbn [bind] in H; [|discriminate].
  destruct (for_each _ (iterable_item_added d)) as [ia|] eqn:Hia;
    cbn [bind] in H; [|discriminate].
  destruct (for_each _ (iterable_item_removed d)) as [ir|] eqn:Hir;
    cbn [bind] in H; [|discriminate].
  injection H as <-.
  repeat (apply in_app_or in He as [He | He]).
  - destruct (for_each_in _ _ _ _ Hvc He) as ([path c] & out & Hin & Hb & Hout).
    cbn [fst snd] in Hb.
    destruct (normalize_value py_float (new_value c)) as [n|] eqn:Hn;
      cbn [bind] in Hb; [|discriminate].
    destruct (normalize_value py_float (old_value c)) as [o|] eqn:Ho;
      cbn [bind] in Hb; [|discriminate].
    injection Hb as <-. destruct Hout as [<- | []].
    cbn in Hc, Hi. subst n o.
    apply normalize_value_none in Hn, Ho.
    now apply (null_value_change d _ path c).
  - apply in_map_iff in He as (path & <- & _). cbn in Hc. discriminate.
  - apply in_map_iff in He as (path & <- & _). cbn in Hi. discriminate.
  - apply in_map_iff in He as (pc & <- & _). cbn in Hc. discriminate.
  - destruct (for_each_in _ _ _ _ Hia He) as ([path v] & out & Hin & Hb & Hout).
    cbn [fst snd] in Hb.
    destruct (py_iter v) as [items|] eqn:Hit; cbn [bind] in Hb; [|discriminate].
    injection Hb as <-. apply in_map_iff in Hout as (item & <- & Hitem).
    cbn in Hc. subst item.
    now apply (null_item_added d _ path v items).
  - destruct (for_each_in _ _ _ _ Hir He) as ([path v] & out & Hin & Hb & Hout).
    cbn [fst snd] in Hb.
    destruct (py_iter v) as [items|] eqn:Hit; cbn [bind] in Hb; [|discriminate].
    injection Hb as <-. apply in_map_iff in Hout as (item & <- & Hitem).
    cbn in Hi. subst item.
    now apply (null_item_removed d _ path v items).
Qed.


End ChangeLogFacts.

(** An added item that is a number, a boolean or null cannot be iterated
    over: the loop of [_process_iterable_item_added] raises, whatever
    else the diff holds after it. *)
Lemma process_iterable_item_added_raises (path : string) (v : value)
  (rest : list (string * value)) (log : list change_entry) :
  py_iter v = Raise TypeError ->
  _process_iterable_item_added ((path, v) :: rest) log = Raise TypeError.
Proof.
  intros H. unfold _process_iterable_item_added.
  cbn [for_each fst snd]. now rewrite H.
Qed.

(** An added item that is the empty text, the empty sequence or the
    empty mapping gives no entry at all. *)
Lemma process_iterable_item_added_nothing (path : string) (v : value)
  (log : list change_entry) :
  py_iter v = Ok [] ->
  _process_iterable_item_added [(path, v)] log = Ok log.
Proof.
  intros H. unfold _process_iterable_item_added.
  cbn [for_each fst snd]. rewrite H. cbn. now rewrite List.app_nil_r.
Qed.

(** Where an entry without a value on either side can come from: an
    entry of the ChangeLog has a value on at least one side unless it is
    an iterable-item entry for which the loop over the item yields a
    null (or a value change that the diff reports between two nulls);
    entries for dictionary items carry a sentinel and entries for type
    changes two texts. *)
Lemma changelog_null_entry_origin :
  forall (py_float : string -> option spec_float) (py_str : value -> string)
         (DeepDiff : value -> value -> list string -> diff)
         (cloud iac : resource) (log : list change_entry) (e : change_entry),
    convert_diff_to_changelog py_float py_str DeepDiff cloud iac = Ok log ->
    In e log ->
    CloudValue e = VNone -> IacValue e = VNone ->
    null_entry_origin (DeepDiff (VDict iac) (VDict cloud) exclude_paths) e.
Proof.
  intros py_float py_str DeepDiff cloud iac log e H He Hc Hi.
  unfold convert_diff_to_changelog in H.
  destruct (diff_is_empty _).
  - injection H as <-. destruct He.
  - eapply process_diff_null_entry; eassumption.
Qed.

Lemma changelog_null_entry_origin_witness :
  null_entry_origin
    (DeepDiff_model (VDict group_iac) (VDict group_cloud) exclude_paths)
    (mk_entry "rules.1[+]" VNone VNone).
Proof.
  apply (changelog_null_entry_origin float_of_no_number str_of_basic
           DeepDiff_model group_cloud group_iac
           [mk_entry "rules.1[+]" VNone VNone]).
  - reflexivity.
  - simpl. left. reflexivity.
  - reflexivity.
  - reflexivity.
Defined.

(** C8 (the code at the failing input).  The added rule [[null]] is
    reported as an added iterable item; [for item in items] iterates
    over the rule itself and emits an entry for its one element, the
    null: the entry has no value on either side, and no type change is
    involved. *)
Theorem changelog_entry_without_values :
  iterable_item_added
    (DeepDiff_model (VDict group_iac) (VDict group_cloud) exclude_paths)
  = [("root['rules'][1]", VList [VNone])] /\
  type_changes
    (DeepDiff_model (VDict group_iac) (VDict group_cloud) exclude_paths)
  = [] /\
  convert_diff_to_changelog float_of_no_number str_of_basic DeepDiff_model
    group_cloud group_iac
  = Ok [mk_entry "rules.1[+]" VNone VNone].
Proof. repeat split. Qed.

(* ================================================================== *)
(** * The Reconciliation Orchestrator *)

Lemma map_result_Forall2 {A B : Type} (f : A -> result B) (l : list A)
  (out : list B) :
  map_result f l = Ok out -> Forall2 (fun a b => f a = Ok b) l out.
Proof.
  revert out. induction l as [|a l IH]; simpl; intros out H.
  - injection H as <-. constructor.
  - destruct (f a) as [b|] eqn:Hb; [|discriminate].
    destruct (map_result f l) as [rest|] eqn:Hr; [|discriminate].
    injection H as <-. constructor; auto.
Qed.

Lemma map_result_total {A B : Type} (f : A -> result B) (l : list A) :
  (forall a, In a l -> exists b, f a = Ok b) ->
  exists out, map_result f l = Ok out.
Proof.
  induction l as [|a l IH]; simpl; intros H; [now exists []|].
  destruct (H a (or_introl eq_refl)) as [b ->].
  destruct IH as [rest ->]; [intros x Hx; apply H; now right|].
  now exists (b :: rest).
Qed.

(** The three counts of a summary add up when every state is known. *)
Lemma count_state_partition (results : list analysis_item) :
  Forall (fun it => known_state (State it)) results ->
  count_state "Match" results + count_state "Modified" results
  + count_state "Missing" results = List.length results.
Proof.
  unfold count_state. induction 1 as [|it results Hit _ IH]; [reflexivity|].
  cbn [filter List.length].
  destruct Hit as [-> | [-> | ->]]; cbn; lia.
Qed.

Section AnalyzerFacts.

Variable py_float : string -> option spec_float.
Variable py_str : value -> string.
Variable DeepDiff : value -> value -> list string -> diff.

(** What one analysis item looks like, when the analysis of the
    resource returns. *)
Lemma analyze_single_resource_shape (cloud : resource) (pool : list resource)
  (it : analysis_item) :
  _analyze_single_resource py_float py_str DeepDiff cloud pool = Ok it ->
  CloudResourceItem it = cloud /\
  known_state (State it) /\
  (State it = "Missing" -> IacResourceItem it = None /\ ChangeLog it = []) /\
  (State it = "Match" -> ChangeLog it = []) /\
  (State it = "Modified" ->
   exists iac, IacResourceItem it = Some iac /\
     convert_diff_to_changelog py_float py_str DeepDiff cloud iac
     = Ok (ChangeLog it)).
Proof.
  unfold _analyze_single_resource, known_state.
  destruct (find_matching_iac_resource cloud pool) as [iac|].
  - destruct (truthy (VDict iac)); cbn [negb].
    + destruct (_are_resources_identical DeepDiff cloud iac).
      * intros [= <-]. cbn. intuition discriminate.
      * destruct (convert_diff_to_changelog _ _ _ cloud iac) as [log|] eqn:Hc;
          cbn [bind]; [|discriminate].
        intros [= <-]. cbn. repeat split; auto; try discriminate.
        intros _. now exists iac.
    + intros [= <-]. cbn. intuition discriminate.
  - intros [= <-]. cbn. intuition discriminate.
Qed.

(** The report, when [analyze] returns one: an item per cloud resource,
    in order, each in a known state, and a summary that adds up. *)
Lemma analyze_report_shape (cloud_resources iac_resources : list resource)
  (r : analysis_report) :
  analyze py_float py_str DeepDiff cloud_resources iac_resources = Ok r ->
  map CloudResourceItem (analysis r) = cloud_resources /\
  List.length (analysis r) = List.length cloud_resources /\
  Forall (fun it => known_state (State it)) (analysis r) /\
  total (summary r) = List.length cloud_resources /\
  match_ (summary r) + modified (summary r) + missing (summary r)
  = total (summary r).
Proof.
  unfold analyze.
  destruct (map_result _ cloud_resources) as [items|] eqn:Hm;
    cbn [bind]; [|discriminate].
  intros [= <-]. cbn [analysis summary _generate_summary total match_ modified missing].
  apply map_result_Forall2 in Hm.
  assert (Hmap : map CloudResourceItem items = cloud_resources).
  { induction Hm as [|c it cs its Hc _ IH]; [reflexivity|].
    cbn. f_equal; [|assumption].
    apply analyze_single_resource_shape in Hc as (Hc & _). exact Hc. }
  assert (Hst : Forall (fun it => known_state (State it)) items).
  { clear Hmap. induction Hm as [|c it cs its Hc _ IH]; [constructor|].
    constructor; [|assumption].
    apply analyze_single_resource_shape in Hc as (_ & Hc & _). exact Hc. }
  assert (Hlen : List.length items = List.length cloud_resources)
    by (now rewrite <- Hmap, length_map).
  repeat split; auto.
  rewrite count_state_partition by assumption. reflexivity.
Qed.

(** [analyze] returns whenever the conversion of every diff does. *)
Lemma analyze_returns (cloud_resources iac_resources : list resource) :
  (forall cloud iac, In cloud cloud_resources -> In iac iac_resources ->
     exists log, convert_diff_to_changelog py_float py_str DeepDiff cloud iac
                 = Ok log) ->
  exists r, analyze py_float py_str DeepDiff cloud_resources iac_resources
            = Ok r.
Proof.
  intros H. unfold analyze.
  destruct (map_result_total
              (fun c => _analyze_single_resource py_float py_str DeepDiff c
                          iac_resources) cloud_resources) as [items ->].
  - intros cloud Hc. unfold _analyze_single_resource.
    destruct (find_matching_iac_resource cloud iac_resources) as [iac|] eqn:Hf;
      [|eauto].
    destruct (truthy (VDict iac)); cbn [negb]; [|eauto].
    destruct (_are_resources_identical DeepDiff cloud iac); [eauto|].
    assert (Hi : In iac iac_resources).
    { rewrite find_matching_cascade in Hf.
      unfold _primary_match, _secondary_match, _tertiary_match in Hf.
      repeat match type of Hf with
             | context [find ?p ?l] =>
                 let E := fresh "E" in
                 destruct (find p l) eqn:E;
                 [apply find_some in E as [E _]|]
             | context [if ?b then _ else _] => destruct b
             end; try discriminate; injection Hf as <-; assumption. }
    destruct (H cloud iac Hc Hi) as [log ->]. cbn. eauto.
  - cbn. eauto.
Qed.

End AnalyzerFacts.

(** C1 (the code at the failing input).  The cloud resource is matched by
    name, differs from its counterpart by one added port, and the diff
    reports the port as an added iterable item.  The loop
    [for item in items] of [_process_iterable_item_added] then iterates
    over the number itself: [analyze] raises [TypeError] and produces no
    report for this input. *)
Theorem analyze_raises_on_added_number :
  find_matching_iac_resource ports_cloud [ports_iac] = Some ports_iac /\
  DeepDiff_model (VDict ports_iac) (VDict ports_cloud) exclude_paths
  = mk_diff [] [] [] [] [("root['ports'][1]", VInt 443)] [] /\
  analyze float_of_no_number str_of_basic DeepDiff_model
    [ports_cloud] [ports_iac]
  = Raise TypeError.
Proof. repeat split. Qed.

(** C2 (the code at the failing input).  The added tag is the empty text;
    the loop [for item in items] iterates over its characters, of which
    there are none: the item is [Modified] and its ChangeLog is empty. *)
Theorem analyze_modified_with_empty_changelog :
  DeepDiff_model (VDict tags_iac) (VDict tags_cloud) exclude_paths
  = mk_diff [] [] [] [] [("root['tags'][1]", VStr EmptyString)] [] /\
  analyze float_of_no_number str_of_basic DeepDiff_model
    [tags_cloud] [tags_iac]
  = Ok (mk_report [mk_item tags_cloud (Some tags_iac) "Modified" []]
                  (mk_summary 1 0 1 0)).
Proof. repeat split. Qed.

(* ================================================================== *)
(** * Paths and their dotted notation *)

(** ** Strings *)

Lemma append_assoc (a b c : string) : ((a ++ b) ++ c = a ++ (b ++ c))%string.
Proof. induction a as [|x a IH]; cbn; [reflexivity | now rewrite IH]. Qed.

Lemma append_nil_r (a : string) : (a ++ EmptyString = a)%string.
Proof. induction a as [|x a IH]; cbn; [reflexivity | now rewrite IH]. Qed.

Lemma length_append (a b : string) :
  String.length (a ++ b) = String.length a + String.length b.
Proof. induction a as [|x a IH]; cbn; [reflexivity | now rewrite IH]. Qed.

Lemma take_length_append (a b : string) : take (String.length a) (a ++ b) = a.
Proof. induction a as [|x a IH]; cbn; [now destruct b | now rewrite IH]. Qed.

Lemma plain_char_spec (c : ascii) :
  plain_char c = true ->
  c <> "'"%char /\ c <> "["%char /\ c <> "]"%char.
Proof.
  unfold plain_char.
  intros [[H1 H2]%andb_true_iff H3]%andb_true_iff.
  apply negb_true_iff, Ascii.eqb_neq in H1, H2, H3. auto.
Qed.

Lemma plain_snoc (s : string) :
  s <> EmptyString -> plain s = true ->
  exists a c, s = (a ++ String c EmptyString)%string /\ plain_char c = true.
Proof.
  induction s as [|x s IH]; [congruence|]. intros _ H.
  cbn in H. apply andb_true_iff in H as [Hx Hs].
  destruct s as [|y s].
  - now exists EmptyString, x.
  - destruct IH as (a & c & Es & Hc); [discriminate | exact Hs |].
    exists (String x a), c. cbn [append]. now rewrite <- Es.
Qed.

(** ** The text of an index *)

Lemma string_of_uint_plain (d : Decimal.uint) :
  plain (NilEmpty.string_of_uint d) = true.
Proof. induction d; cbn; auto. Qed.

Lemma nat_to_string_plain (i : nat) : plain (nat_to_string i) = true.
Proof. apply string_of_uint_plain. Qed.

Lemma nat_to_string_nonempty (i : nat) : nat_to_string i <> EmptyString.
Proof.
  unfold nat_to_string.
  assert (H : Nat.to_uint i <> Decimal.Nil).
  { rewrite <- (DecimalNat.Unsigned.of_to i) at 1.
    rewrite DecimalNat.Unsigned.to_of. apply DecimalFacts.unorm_nonnil. }
  destruct (Nat.to_uint i); cbn; congruence.
Qed.

Lemma segment_text_plain (s : segment) :
  plain_segment s = true -> plain (segment_text s) = true.
Proof. destruct s; cbn; [auto | intros _; apply nat_to_string_plain]. Qed.

(** ** [endswith] and [s[:-2]] *)

Lemma endswith_quote_append (v : string) : endswith "']" (v ++ "']") = true.
Proof.
  induction v as [|x v IH]; [reflexivity|].
  cbn [append endswith]. now destruct (String.eqb _ _).
Qed.

Lemma drop_last_quote_append (v : string) : drop_last 2 (v ++ "']") = v.
Proof.
  unfold drop_last. rewrite length_append. cbn [String.length].
  rewrite Nat.add_sub. apply take_length_append.
Qed.

Lemma eqb_snoc_bracket (a : string) (c : ascii) :
  String.eqb (a ++ String c "]") "]" = false.
Proof.
  apply String.eqb_neq. intros H. apply (f_equal String.length) in H.
  rewrite length_append in H. cbn in H. lia.
Qed.

Lemma endswith_snoc_bracket (a : string) (c : ascii) :
  c <> "'"%char -> endswith "']" (a ++ String c "]") = false.
Proof.
  intros Hc. induction a as [|x a IH].
  - cbn. apply Ascii.eqb_neq in Hc. now rewrite Hc.
  - cbn [append endswith].
    replace (String.eqb (String x (a ++ String c "]")) "']") with false;
      [exact IH|].
    symmetry. cbn [String.eqb]. rewrite eqb_snoc_bracket. apply andb_false_r.
Qed.

Lemma render_segments_body (p : bool) (segs : list segment) :
  (closing p ++ render_segments segs)%string = body J_rendered E_rendered p segs.
Proof.
  revert p. induction segs as [|s rest IH]; intros p; cbn [render_segments body].
  - apply append_nil_r.
  - rewrite <- IH. unfold J_rendered.
    destruct s; cbn [render_segment is_key segment_text closing opening];
      rewrite !append_assoc; reflexivity.
Qed.

Lemma body_rendered_cut (p : bool) (segs : list segment) :
  body J_rendered E_rendered p segs =
  (body J_rendered E_cut p segs
   ++ (if last_is_key p segs then "']" else EmptyString))%string.
Proof.
  revert p. induction segs as [|s rest IH]; intros p; cbn [body last_is_key].
  - now destruct p.
  - rewrite IH, !append_assoc. reflexivity.
Qed.

(** A path that ends with an index ends with a plain character and the
    closing bracket. *)
Lemma body_cut_snoc (segs : list segment) (prev : bool) (text : string) :
  last_is_key prev segs = false ->
  (prev = false -> text <> EmptyString) ->
  plain text = true -> forallb plain_segment segs = true ->
  exists a c, (text ++ body J_rendered E_cut prev segs)%string
              = (a ++ String c "]")%string /\ c <> "'"%char.
Proof.
  revert prev text.
  induction segs as [|s rest IH]; intros prev text Hl Ht Hp Hs;
    cbn [body last_is_key] in *.
  - subst prev. destruct (plain_snoc text (Ht eq_refl) Hp) as (a & c & -> & Hc).
    exists a, c. split; [now rewrite append_assoc|].
    now apply plain_char_spec in Hc.
  - cbn [forallb] in Hs. apply andb_true_iff in Hs as [Hs Hrest].
    destruct (IH (is_key s) (segment_text s) Hl) as (a & c & E & Hc).
    + destruct s; [discriminate | intros _; apply nat_to_string_nonempty].
    + now apply segment_text_plain.
    + exact Hrest.
    + exists (text ++ J_rendered prev (is_key s) ++ a)%string, c.
      split; [|exact Hc]. rewrite E, !append_assoc. reflexivity.
Qed.

(** ** One pass over a path *)

Lemma head_not_plain (c : ascii) (text rest : string) :
  plain_char c = false -> plain text = true ->
  head_not c rest -> head_not c (text ++ rest).
Proof.
  intros Hc Ht Hr. destruct text as [|a text]; [exact Hr|].
  cbn in *. apply andb_true_iff in Ht as [Ha _]. congruence.
Qed.

Section Pass.

Variable F : string -> string.
Variables J J' : bool -> bool -> string.
Variables E E' : bool -> string.

Hypothesis F_plain : forall c s,
    plain_char c = true -> F (String c s) = String c (F s).
Hypothesis F_end : forall p, F (E p) = E' p.
Hypothesis F_junction : forall p k x,
    next_ok k x -> F (J p k ++ x) = (J' p k ++ F x)%string.
Hypothesis J_head : forall k y, head_not "]" (J true k ++ y).
Hypothesis E_head : head_not "]" (E true).

Lemma pass_plain (text s : string) :
  plain text = true -> F (text ++ s) = (text ++ F s)%string.
Proof.
  induction text as [|c text IH]; cbn; [reflexivity|].
  intros [Hc Ht]%andb_true_iff. now rewrite F_plain, IH.
Qed.

Lemma next_ok_body (s : segment) (rest : list segment) :
  plain_segment s = true ->
  next_ok (is_key s) (segment_text s ++ body J E (is_key s) rest).
Proof.
  intros Hs. unfold next_ok. destruct s as [k|i]; cbn [is_key segment_text].
  - apply head_not_plain; [reflexivity | exact Hs |].
    destruct rest; cbn [body]; [exact E_head | apply J_head].
  - pose proof (nat_to_string_nonempty i) as Hn.
    pose proof (nat_to_string_plain i) as Hp.
    destruct (nat_to_string i) as [|c t]; [congruence|].
    cbn in *. apply andb_true_iff in Hp as [Hc _].
    now apply plain_char_spec in Hc.
Qed.

Lemma pass_body (segs : list segment) (prev : bool) (text : string) :
  plain text = true -> forallb plain_segment segs = true ->
  F (text ++ body J E prev segs) = (text ++ body J' E' prev segs)%string.
Proof.
  revert prev text.
  induction segs as [|s rest IH]; intros prev text Ht Hs; cbn [body].
  - now rewrite pass_plain, F_end.
  - cbn [forallb] in Hs. apply andb_true_iff in Hs as [Hs Hrest].
    rewrite pass_plain by assumption.
    rewrite F_junction by now apply next_ok_body.
    rewrite IH; [reflexivity | now apply segment_text_plain | exact Hrest].
Qed.

End Pass.

(** ** The passes of [_convert_path_to_key_name] *)

Lemma replace_other (q : ascii) (pat rep : string) (c : ascii) (s : string) :
  c <> q ->
  replace (String q pat) rep (String c s)
  = String c (replace (String q pat) rep s).
Proof.
  intros Hc. unfold replace. cbn [replace_from String.prefix].
  destruct (ascii_dec q c); [congruence | reflexivity].
Qed.

Lemma replace_plain (q : ascii) (pat rep : string) (c : ascii) (s : string) :
  plain_char q = false -> plain_char c = true ->
  replace (String q pat) rep (String c s)
  = String c (replace (String q pat) rep s).
Proof. intros Hq Hc. apply replace_other. congruence. Qed.

Ltac pass_junction x :=
  unfold next_ok, head_not, replace;
  destruct x as [|a x]; intros Hx;
  cbn [replace_from String.prefix append String.length Nat.sub];
  repeat match goal with
         | |- context [ascii_dec ?q a] => destruct (ascii_dec q a); [congruence|]
         end;
  reflexivity.

Lemma pass_keys (segs : list segment) (text : string) :
  plain text = true -> forallb plain_segment segs = true ->
  replace "']['" "." (text ++ body J_rendered E_cut true segs)
  = (text ++ body J_keys E_cut true segs)%string.
Proof.
  apply pass_body.
  - intros c s. now apply replace_plain.
  - now intros [].
  - intros [] [] x; cbn; pass_junction x.
  - intros [] y; cbn; congruence.
  - exact I.
Qed.

Lemma pass_brackets (segs : list segment) (text : string) :
  plain text = true -> forallb plain_segment segs = true ->
  replace "][" "." (text ++ body J_keys E_cut true segs)
  = (text ++ body J_brackets E_cut true segs)%string.
Proof.
  apply pass_body.
  - intros c s. now apply replace_plain.
  - now intros [].
  - intros [] [] x _; destruct x; reflexivity.
  - intros [] y; cbn; congruence.
  - exact I.
Qed.

Lemma pass_quotes (segs : list segment) (text : string) :
  plain text = true -> forallb plain_segment segs = true ->
  replace "'" EmptyString (text ++ body J_brackets E_cut true segs)
  = (text ++ body J_dot E_cut true segs)%string.
Proof.
  apply pass_body.
  - intros c s. now apply replace_plain.
  - now intros [].
  - intros [] [] x _; destruct x; reflexivity.
  - intros [] y; cbn; congruence.
  - exact I.
Qed.

Lemma pass_opening (segs : list segment) (text : string) :
  plain text = true -> forallb plain_segment segs = true ->
  replace "[" EmptyString (text ++ body J_dot E_cut true segs)
  = (text ++ body J_dot E_cut true segs)%string.
Proof.
  apply pass_body.
  - intros c s. now apply replace_plain.
  - now intros [].
  - intros [] [] x _; destruct x; reflexivity.
  - intros [] y; cbn; congruence.
  - exact I.
Qed.

Lemma pass_closing (segs : list segment) (text : string) :
  plain text = true -> forallb plain_segment segs = true ->
  replace "]" EmptyString (text ++ body J_dot E_cut true segs)
  = (text ++ body J_dot E_none true segs)%string.
Proof.
  apply pass_body.
  - intros c s. now apply replace_plain.
  - now intros [].
  - intros [] [] x _; destruct x; reflexivity.
  - intros [] y; cbn; congruence.
  - exact I.
Qed.

Lemma dotted_body (text : string) (prev : bool) (segs : list segment) :
  String.concat "." (text :: map segment_text segs)
  = (text ++ body J_dot E_none prev segs)%string.
Proof.
  revert text prev. induction segs as [|s rest IH]; intros text prev.
  - cbn. now rewrite append_nil_r.
  - cbn [map body]. rewrite <- (IH (segment_text s) (is_key s)). reflexivity.
Qed.

Lemma prefix_append (p s : string) : String.prefix p (p ++ s) = true.
Proof.
  induction p as [|c p IH]; [now destruct s|].
  cbn. now destruct (ascii_dec c c).
Qed.

(** The path, once the root marker and a final ['] are cut. *)
Lemma cut_root_and_end (k : string) (segs : list segment) :
  plain k = true -> forallb plain_segment segs = true ->
  (let path := render_path (Key k :: segs) in
   let path := if startswith "root['" path then drop 6 path else path in
   if endswith "']" path then drop_last 2 path else path)
  = (k ++ body J_rendered E_cut true segs)%string.
Proof.
  intros Hk Hs.
  assert (E : render_path (Key k :: segs)
              = ("root['" ++ k ++ body J_rendered E_rendered true segs)%string).
  { unfold render_path. cbn [render_segments render_segment].
    rewrite <- render_segments_body. cbn [closing].
    rewrite !append_assoc. reflexivity. }
  cbn zeta. rewrite E. unfold startswith. rewrite prefix_append.
  change (drop 6 ("root['" ++ k ++ body J_rendered E_rendered true segs))
    with (k ++ body J_rendered E_rendered true segs)%string.
  rewrite body_rendered_cut, <- append_assoc.
  destruct (last_is_key true segs) eqn:Hl.
  - now rewrite endswith_quote_append, drop_last_quote_append.
  - rewrite append_nil_r.
    destruct (body_cut_snoc segs true k Hl) as (a & c & -> & Hc);
      [discriminate | assumption | assumption |].
    now rewrite endswith_snoc_bracket.
Qed.

(** The conversion of a path whose first segment is a key and whose
    keys are plain. *)
Lemma convert_plain_path (k : string) (segs : list segment) :
  plain k = true -> forallb plain_segment segs = true ->
  _convert_path_to_key_name (render_path (Key k :: segs))
  = dotted (Key k :: segs).
Proof.
  intros Hk Hs. unfold _convert_path_to_key_name. cbn zeta.
  pose proof (cut_root_and_end k segs Hk Hs) as Hcut. cbn zeta in Hcut.
  rewrite Hcut.
  rewrite pass_keys, pass_brackets, pass_quotes, pass_opening, pass_closing
    by assumption.
  unfold dotted. cbn [map segment_text]. symmetry. apply dotted_body.
Qed.

(** C7, as amended.  For a path made of the root marker, a quoted key
    and any number of further quoted keys and bracketed indexes, at any
    depth and in any mix, whose keys contain neither a quote nor a
    bracket, the conversion returns the texts of the segments joined with
    dots; in particular for the three paths of the specification. *)
Theorem convert_path_to_key_name_dotted :
  (forall (k : string) (segs : list segment),
      plain k = true -> forallb plain_segment segs = true ->
      _convert_path_to_key_name (render_path (Key k :: segs))
      = dotted (Key k :: segs))
  /\ _convert_path_to_key_name "root['tags']['totalAmount']" = "tags.totalAmount"
  /\ _convert_path_to_key_name "root['security_groups'][0]" = "security_groups.0"
  /\ _convert_path_to_key_name "root['a']['b']['c']" = "a.b.c".
Proof.
  split; [exact convert_plain_path|]. repeat split.
Qed.

Lemma convert_path_to_key_name_dotted_witness :
  render_path [Key "rules"; Index 0; Index 12; Key "ports"]
  = "root['rules'][0][12]['ports']" /\
  _convert_path_to_key_name (render_path [Key "rules"; Index 0; Index 12; Key "ports"])
  = "rules.0.12.ports".
Proof.
  split; [reflexivity|].
  apply (proj1 convert_path_to_key_name_dotted "rules"
           [Index 0; Index 12; Key "ports"]); reflexivity.
Defined.

(** C7 (counterexample).  A key that contains brackets loses them: the
    path of the key [a[0]] is converted to [a0]. *)
Lemma convert_path_key_with_brackets :
  render_path [Key "a[0]"] = "root['a[0]']" /\
  _convert_path_to_key_name (render_path [Key "a[0]"]) = "a0" /\
  _convert_path_to_key_name (render_path [Key "a[0]"]) <> dotted [Key "a[0]"].
Proof. repeat split. discriminate. Qed.

(** A path that starts with an index keeps its root marker. *)
Lemma convert_path_index_first :
  _convert_path_to_key_name (render_path [Index 0; Key "a"]) = "root0.a".
Proof. reflexivity. Qed.

(* ================================================================== *)
(** * The diff of equal resources *)

Lemma dict_get_in (k : string) (v : value) (d : list (string * value)) :
  distinct (map fst d) = true -> In (k, v) d -> dict_get k d = Some v.
Proof.
  induction d as [|[k' v'] d IH]; cbn; [intros _ []|].
  intros [Hk Hd]%andb_true_iff [[= -> ->] | Hin].
  - now rewrite String.eqb_refl.
  - destruct (String.eqb k k') eqn:E; [|auto].
    apply String.eqb_eq in E. subst k'.
    apply negb_true_iff in Hk.
    assert (Hex : existsb (String.eqb k) (map fst d) = true).
    { apply existsb_exists. exists k. split; [|apply String.eqb_refl].
      apply in_map_iff. now exists (k, v). }
    congruence.
Qed.


Lemma float_eqb_refl (f : spec_float) : is_nan f = false -> float_eqb f f = true.
Proof.
  unfold float_eqb, SFeqb, SFcompare.
  destruct f as [[]|[]| |[] m e]; try reflexivity; try discriminate; intros _;
    rewrite Z.compare_refl, Pos.compare_cont_refl; reflexivity.
Qed.

Lemma float_same_refl (f : spec_float) : float_same f f = true.
Proof.
  destruct f as [s|s| |s m e]; cbn;
    rewrite ?Bool.eqb_reflx, ?Pos.eqb_refl, ?Z.eqb_refl; reflexivity.
Qed.

Lemma same_element_refl (v : value) : json_value v = true -> same_element v v = true.
Proof.
  induction v as [| | | | |l IH|d IH] using value_induction; cbn [same_element];
    intros Hj; try reflexivity.
  - apply Bool.eqb_reflx.
  - apply Z.eqb_refl.
  - apply float_same_refl.
  - apply String.eqb_refl.
  - cbn [json_value] in Hj. rewrite forallb_forall in Hj.
    rewrite Forall_forall in IH.
    assert (H : forall x, In x l -> existsb (fun y => same_element x y) l = true).
    { intros x Hx. apply existsb_exists. exists x. auto. }
    assert (H' : forall y, In y l -> existsb (fun x => same_element x y) l = true).
    { intros y Hy. apply existsb_exists. exists y. auto. }
    apply andb_true_iff. split; apply forallb_forall; assumption.
  - cbn [json_value] in Hj. apply andb_true_iff in Hj as [Hd Hj].
    rewrite forallb_forall in Hj. rewrite Forall_forall in IH.
    rewrite Nat.eqb_refl. cbn [andb]. apply forallb_forall.
    intros [k v] Hin. cbn [fst snd].
    rewrite (dict_get_in k v d Hd Hin). apply (IH (k, v) Hin), (Hj (k, v) Hin).
Qed.

Lemma unmatched_none (path : string) (l others : list value) (i : nat) :
  (forall x, In x l -> existsb (fun y => same_element x y) others = true) ->
  unmatched path i l others = [].
Proof.
  revert i. induction l as [|x l IH]; intros i H; [reflexivity|].
  cbn [unmatched]. rewrite (H x (or_introl eq_refl)).
  apply IH. intros y Hy. apply H. now right.
Qed.

Lemma filter_none {A : Type} (p : A -> bool) (l : list A) :
  (forall x, In x l -> p x = false) -> filter p l = [].
Proof.
  induction l as [|a l IH]; intros H; [reflexivity|].
  cbn. rewrite (H a (or_introl eq_refl)). apply IH.
  intros x Hx. apply H. now right.
Qed.

Lemma diff_old_keys_empty (compare : string -> value -> value -> diff)
  (excl : list string) (path : string) (e d : list (string * value)) :
  (forall k v, In (k, v) d ->
     match dict_get k e with
     | Some w => compare (key_path path k) v w = empty_diff
     | None => excluded excl (key_path path k) = true
     end) ->
  diff_old_keys compare excl path e d = empty_diff.
Proof.
  induction d as [|[k v] d IH]; intros H; [reflexivity|].
  cbn [diff_old_keys]. rewrite IH by (intros k' v' Hin; apply H; now right).
  specialize (H k v (or_introl eq_refl)).
  destruct (dict_get k e); rewrite H; reflexivity.
Qed.


(** A JSON value has no difference with itself. *)
Lemma structural_diff_refl (excl : list string) (v : value) :
  json_value v = true ->
  forall path, structural_diff excl path v v = empty_diff.
Proof.
  induction v as [| | | | |l IH|d IH] using value_induction;
    intros Hj path; cbn [structural_diff];
    destruct (excluded excl path); try reflexivity.
  - now rewrite Bool.eqb_reflx.
  - now rewrite Z.eqb_refl.
  - cbn [json_value] in Hj. apply negb_true_iff in Hj.
    now rewrite float_eqb_refl.
  - now rewrite String.eqb_refl.
  - cbn [json_value] in Hj. rewrite forallb_forall in Hj.
    rewrite unmatched_none; [reflexivity|].
    intros x Hx. apply existsb_exists. exists x.
    split; [assumption | apply same_element_refl; auto].
  - cbn [json_value] in Hj. apply andb_true_iff in Hj as [Hd Hj].
    rewrite forallb_forall in Hj. rewrite Forall_forall in IH.
    unfold added_keys. rewrite (filter_none (fun kv => negb (has_key (fst kv) d))).
    + rewrite diff_old_keys_empty; [reflexivity|].
      intros k v Hin. rewrite (dict_get_in k v d Hd Hin).
      apply (IH (k, v) Hin), (Hj (k, v) Hin).
    + intros [k v] Hin. unfold has_key. cbn [fst].
      now rewrite (dict_get_in k v d Hd Hin).
Qed.

(** ** Resources that differ in their top-level identity fields only *)





(** ** Resources with the same content, their keys in any order *)


Lemma dict_get_none_iff (k : string) (d : list (string * value)) :
  dict_get k d = None <-> ~ In k (map fst d).
Proof.
  induction d as [|[k' v] d IH]; cbn [dict_get map fst In]; [tauto|].
  destruct (String.eqb k k') eqn:E.
  - apply String.eqb_eq in E. subst k'. split; [discriminate | tauto].
  - apply String.eqb_neq in E. rewrite IH. split; [|tauto].
    intros H [Hk | Hin]; [congruence | tauto].
Qed.


















(* ================================================================== *)
(** * The tests of the repository

    The embedding, with the modelled diff engine, gives on the inputs of
    the repository's tests the results that the tests expect. *)

Example test_mixed_scenarios :
  let ec2 := [("id", VStr "ec2-1"); ("type", VStr "aws_ec2_instance");
              ("name", VStr "web-server"); ("region", VStr "us-west-2")] in
  let s3 env := [("id", VStr "s3-1"); ("type", VStr "aws_s3_bucket");
                 ("name", VStr "my-bucket"); ("region", VStr "us-east-1");
                 ("tags", VDict [("Environment", VStr env)])] in
  let rds := [("id", VStr "rds-1"); ("type", VStr "aws_rds_instance");
              ("name", VStr "database"); ("region", VStr "us-west-2")] in
  exists items,
    analyze float_of_no_number str_of_basic DeepDiff_model
      [ec2; s3 "production"; rds] [ec2; s3 "staging"]
    = Ok (mk_report items (mk_summary 3 1 1 1)) /\
    map State items = ["Match"; "Modified"; "Missing"].
Proof. eexists. split; reflexivity. Qed.

Example test_simple_value_change :
  convert_diff_to_changelog float_of_no_number str_of_basic DeepDiff_model
    [("id", VStr "ec2-1"); ("type", VStr "aws_ec2_instance");
     ("name", VStr "web-server"); ("tags", VDict [("totalAmount", VStr "17kb")])]
    [("id", VStr "ec2-1"); ("type", VStr "aws_ec2_instance");
     ("name", VStr "web-server"); ("tags", VDict [("totalAmount", VStr "22kb")])]
  = Ok [mk_entry "tags.totalAmount" (VStr "17kb") (VStr "22kb")].
Proof. reflexivity. Qed.

Example test_dictionary_item_added :
  convert_diff_to_changelog float_of_no_number str_of_basic DeepDiff_model
    [("id", VStr "ec2-1");
     ("tags", VDict [("Environment", VStr "production");
                     ("Owner", VStr "devops-team")])]
    [("id", VStr "ec2-1");
     ("tags", VDict [("Environment", VStr "production")])]
  = Ok [mk_entry "tags.Owner" (VStr "ADDED") VNone].
Proof. reflexivity. Qed.

Example test_dictionary_item_removed :
  convert_diff_to_changelog float_of_no_number str_of_basic DeepDiff_model
    [("id", VStr "ec2-1");
     ("tags", VDict [("Environment", VStr "production")])]
    [("id", VStr "ec2-1");
     ("tags", VDict [("Environment", VStr "production");
                     ("Owner", VStr "devops-team")])]
  = Ok [mk_entry "tags.Owner" VNone (VStr "REMOVED")].
Proof. reflexivity. Qed.

Example test_type_change :
  convert_diff_to_changelog float_of_no_number str_of_basic DeepDiff_model
    [("id", VStr "ec2-1"); ("config", VDict [("size", VInt 100)])]
    [("id", VStr "ec2-1"); ("config", VDict [("size", VStr "100GB")])]
  = Ok [mk_entry "config.size" (VStr "int: 100") (VStr "str: 100GB")].
Proof. reflexivity. Qed.

(** The added security group is split into its characters, each under
    the key that the test looks for. *)
Example test_array_differences :
  exists log,
    convert_diff_to_changelog float_of_no_number str_of_basic DeepDiff_model
      [("id", VStr "ec2-1");
       ("security_groups",
        VList [VStr "sg-12345"; VStr "sg-67890"; VStr "sg-11111"])]
      [("id", VStr "ec2-1");
       ("security_groups", VList [VStr "sg-12345"; VStr "sg-67890"])]
    = Ok log /\
    map KeyName log = repeat "security_groups.2[+]" 8 /\
    map CloudValue log = chars "sg-11111".
Proof. eexists. repeat split. Qed.

Example test_primary_match_by_id :
  let cloud := [("id", VStr "ec2-123"); ("type", VStr "aws_ec2_instance");
                ("name", VStr "web-server")] in
  let db := [("id", VStr "ec2-456"); ("type", VStr "aws_ec2_instance");
             ("name", VStr "db-server")] in
  let web := [("id", VStr "ec2-123"); ("type", VStr "aws_ec2_instance");
              ("name", VStr "web-server")] in
  find_matching_iac_resource cloud [db; web] = Some web.
Proof. reflexivity. Qed.

Example test_no_match_found :
  find_matching_iac_resource
    [("id", VStr "cloud-123"); ("type", VStr "aws_ec2_instance");
     ("name", VStr "web-server")]
    [[("id", VStr "iac-456"); ("type", VStr "aws_s3_bucket");
      ("name", VStr "my-bucket")]]
  = None.
Proof. reflexivity. Qed.

Example test_match_confidence_type_name_match :
  get_match_confidence
    [("id", VStr "cloud-123"); ("type", VStr "aws_ec2_instance");
     ("name", VStr "web-server"); ("region", VStr "us-west-2")]
    [("id", VStr "iac-456"); ("type", VStr "aws_ec2_instance");
     ("name", VStr "web-server"); ("region", VStr "us-west-2")]
  = f1_0.
Proof. vm_compute. reflexivity. Qed.

(* ================================================================== *)
(** * Further properties of the Value Normalizer *)


Lemma normalize_value_ok_iff (py_float : string -> option spec_float) (v : value) :
  (exists w, normalize_value py_float v = Ok w) <-> bad_digits v = false.
Proof.
  destruct v; cbn [normalize_value bad_digits];
    try (split; [reflexivity | intros _; eexists; reflexivity]).
  destruct (isdigit s) eqn:Hd; cbn [andb].
  - destruct (py_int s); cbn [bind].
    + split; [reflexivity | intros _; eexists; reflexivity].
    + split; [intros [w H]; discriminate | discriminate].
  - split; [reflexivity|]. intros _. destruct (py_float s); eexists; reflexivity.
Qed.


Lemma string_of_uint_ascii_digits (d : Decimal.uint) :
  string_forallb is_ascii_digit (NilEmpty.string_of_uint d) = true.
Proof. induction d; cbn; auto. Qed.

Lemma decimal_value_of_uint (d : Decimal.uint) (acc : nat) :
  decimal_value (Z.of_nat acc) (NilEmpty.string_of_uint d)
  = Z.of_nat (Nat.of_uint_acc d acc).
Proof.
  revert acc.
  induction d; intros acc; cbn [NilEmpty.string_of_uint decimal_value Nat.of_uint_acc];
    [reflexivity | rewrite <- IHd; f_equal; rewrite Nat.tail_mul_spec; cbn; lia ..].
Qed.

(** X2.  The decimal text of a natural number is normalized to that
    number when it has at most 4300 digits, the most that [int] accepts
    by default; beyond that the normalizer raises [ValueError]. *)
Theorem normalize_value_decimal_text :
  forall (py_float : string -> option spec_float) (n : nat),
    normalize_value py_float (VStr (nat_to_string n)) =
      if (Z.of_nat (String.length (nat_to_string n)) <=? int_max_str_digits)%Z
      then Ok (VInt (Z.of_nat n))
      else Raise ValueError.
Proof.
  intros py_float n.
  rewrite normalize_value_ascii_digits.
  - unfold nat_to_string.
    pose proof (decimal_value_of_uint (Nat.to_uint n) 0) as H.
    cbn [Z.of_nat] in H. rewrite H.
    change (Nat.of_uint_acc (Nat.to_uint n) 0) with (Nat.of_uint (Nat.to_uint n)).
    now rewrite DecimalNat.Unsigned.of_to.
  - apply nat_to_string_nonempty.
  - apply string_of_uint_ascii_digits.
Qed.

(** X3.  The normalizer returns a text only when it was given that very
    text and neither [isdigit] nor [float] accepts it: a text is never
    turned into another text. *)
Theorem normalize_value_text_iff :
  forall (py_float : string -> option spec_float) (v : value) (s : string),
    normalize_value py_float v = Ok (VStr s) <->
    v = VStr s /\ isdigit s = false /\ py_float s = None.
Proof.
  intros py_float v s. split.
  - destruct v; cbn [normalize_value]; try discriminate.
    destruct (isdigit s0) eqn:Hd.
    + destruct (py_int s0); discriminate.
    + destruct (py_float s0) eqn:Hf; [discriminate|].
      intros [= <-]. auto.
  - intros (-> & Hd & Hf). cbn [normalize_value]. now rewrite Hd, Hf.
Qed.

(* ================================================================== *)
(** * Further properties of the Resource Matcher *)

Lemma find_in {A : Type} (p : A -> bool) (l : list A) (r : A) :
  find p l = Some r -> In r l /\ p r = true.
Proof. apply find_some. Qed.

Lemma primary_hit_empty_ids (cloud r : resource) :
  cloud_ids cloud = [] -> primary_hit cloud r = false.
Proof.
  intros H. unfold primary_hit, py_in. rewrite H. cbn.
  destruct (dict_get "id" r), (dict_get "resource_id" r), (dict_get "arn" r);
    reflexivity.
Qed.

(** X4.  The matcher returns a candidate of the pool, never a resource
    of its own making: one that holds an identity value of the cloud
    resource, or, the cloud resource having a non-empty name, one that
    has this name. *)
Theorem find_matching_iac_resource_member :
  forall (cloud : resource) (pool : list resource) (r : resource),
    find_matching_iac_resource cloud pool = Some r ->
    In r pool /\
    (primary_hit cloud r = true \/
     (truthy (get cloud "name") = true /\ name_hit cloud r = true)).
Proof.
  intros cloud pool r. rewrite find_matching_cascade.
  destruct (_primary_match cloud pool) as [r1|] eqn:H1.
  - intros [= ->]. apply find_in in H1 as [Hin Hp]. auto.
  - destruct (_secondary_match cloud pool) as [r2|] eqn:H2.
    + intros [= ->].
      apply secondary_match_spec in H2 as (_ & Hn & H2).
      apply find_first_hit, find_in in H2 as [Hin Hs].
      split; [assumption|]. right. split; [assumption|].
      now apply secondary_hit_name.
    + intros H3. apply tertiary_match_spec in H3 as (Hn & [[_ H3] | [_ H3]]);
        apply find_first_hit, find_in in H3 as [Hin Hs];
        (split; [assumption|]); right; (split; [assumption|]);
        [now apply name_region_hit_name | assumption].
Qed.

Lemma find_matching_iac_resource_member_witness :
  let cloud := [("name", VStr "web"); ("region", VStr "eu")] in
  let other := [("name", VStr "db")] in
  let web := [("name", VStr "web")] in
  In web [other; web] /\
  (primary_hit cloud web = true \/
   (truthy (get cloud "name") = true /\ name_hit cloud web = true)).
Proof.
  intros cloud other web.
  apply (find_matching_iac_resource_member cloud [other; web] web).
  reflexivity.
Defined.

(** X5.  A cloud resource stays without a match exactly when no candidate
    holds one of its non-empty identity values and either its name is
    empty or absent or no candidate has its name: the type never decides
    whether there is a match, only which candidate it is. *)
Theorem find_matching_iac_resource_none_iff :
  forall (cloud : resource) (pool : list resource),
    find_matching_iac_resource cloud pool = None <->
    (forall c, In c pool -> primary_hit cloud c = false) /\
    (truthy (get cloud "name") = false \/
     forall c, In c pool -> name_hit cloud c = false).
Proof.
  intros cloud pool. rewrite find_matching_cascade. split.
  - destruct (_primary_match cloud pool) as [r1|] eqn:H1; [discriminate|].
    destruct (_secondary_match cloud pool) as [r2|] eqn:H2; [discriminate|].
    intros H3. split; [now apply find_none_iff|].
    destruct (truthy (get cloud "name")) eqn:Hn; [right | now left].
    unfold _tertiary_match in H3. rewrite Hn in H3. cbn [negb] in H3.
    destruct (if truthy (get cloud "region")
              then find (name_region_hit cloud) pool else None);
      [discriminate|].
    now apply find_none_iff.
  - intros [Hp Hn].
    apply find_none_iff in Hp. unfold _primary_match. rewrite Hp.
    assert (H3 : _tertiary_match cloud pool = None).
    { destruct (_tertiary_match cloud pool) as [r|] eqn:H3; [|reflexivity].
      apply tertiary_match_spec in H3 as (Ht & [[_ H3] | [_ H3]]);
        apply find_first_hit, find_in in H3 as [Hin Hs];
        destruct Hn as [Hn | Hn]; try congruence.
      - apply name_region_hit_name in Hs. rewrite (Hn r Hin) in Hs. discriminate.
      - rewrite (Hn r Hin) in Hs. discriminate. }
    destruct (_secondary_match cloud pool) as [r|] eqn:H2; [|exact H3].
    apply secondary_match_spec in H2 as (_ & Ht & H2).
    apply find_first_hit, find_in in H2 as [Hin Hs].
    apply secondary_hit_name in Hs.
    destruct Hn as [Hn | Hn]; [congruence|].
    rewrite (Hn r Hin) in Hs. discriminate.
Qed.

Lemma py_eq_text_r (v : value) (s : string) :
  py_eq v (VStr s) = true -> v = VStr s.
Proof.
  destruct v; cbn; try discriminate.
  intros H. apply String.eqb_eq in H. now subst.
Qed.

(** X6.  An identity match has full confidence: when the identity values
    of the cloud resource are texts, the candidate that the identity
    tier returns scores 1.0. *)
Theorem primary_match_full_confidence :
  forall (cloud : resource) (pool : list resource) (r : resource),
    (forall field, In field id_fields ->
                   text_or_absent (get cloud field) = true) ->
    _primary_match cloud pool = Some r ->
    get_match_confidence cloud r = f1_0.
Proof.
  intros cloud pool r Htext H.
  apply find_in in H as [_ H]. unfold primary_hit in H.
  apply existsb_exists in H as (f2 & Hf2 & H).
  destruct (dict_get f2 r) as [v|] eqn:Hv; [|discriminate].
  apply existsb_exists in H as (c & Hc & He).
  unfold cloud_ids in Hc. apply in_map_iff in Hc as (f1 & <- & Hf1).
  apply filter_In in Hf1 as [Hf1 Ht].
  specialize (Htext f1 Hf1).
  destruct (get cloud f1) as [| | | |s| |] eqn:Hg; try discriminate.
  apply py_eq_text_r in He. subst v.
  apply get_match_confidence_identity. unfold id_pair_hit.
  apply existsb_exists. exists f1. split; [assumption|].
  apply existsb_exists. exists f2. split; [assumption|].
  assert (Hr : get r f2 = VStr s) by (unfold get; now rewrite Hv).
  rewrite Hr, Hg, Ht. cbn. apply String.eqb_refl.
Qed.

Lemma primary_match_full_confidence_witness :
  let cloud := [("id", VStr "ec2-123"); ("name", VStr "web-server")] in
  let by_arn := [("arn", VStr "ec2-123"); ("name", VStr "db-server");
                 ("region", VStr "eu")] in
  get_match_confidence cloud by_arn = f1_0.
Proof.
  intros cloud by_arn.
  apply (primary_match_full_confidence cloud [by_arn] by_arn).
  - intros field [<- | [<- | [<- | []]]]; reflexivity.
  - reflexivity.
Defined.

(** X7.  The confidence is one of six numbers between 0.0 and 1.0: 0.0,
    0.2, 0.4, 0.4 + 0.2 (the float above 0.6), 0.8 and 1.0.  The bound
    of [min] is never needed: the accumulated score never exceeds 1.0,
    [min(score, 1.0)] is the score itself and the confidence is 1.0 on
    an identity match and the accumulated score otherwise. *)
Theorem get_match_confidence_values :
  forall cloud iac : resource,
    In (get_match_confidence cloud iac)
       [f0_0; f0_2; f0_4; float_add f0_4 f0_2; float_add f0_4 f0_4; f1_0] /\
    SFleb f0_0 (get_match_confidence cloud iac) = true /\
    SFleb (get_match_confidence cloud iac) f1_0 = true /\
    SFleb (accumulated_score cloud iac) f1_0 = true /\
    float_min (accumulated_score cloud iac) f1_0 = accumulated_score cloud iac /\
    get_match_confidence cloud iac
    = if id_pair_hit cloud iac then f1_0 else accumulated_score cloud iac.
Proof.
  intros cloud iac. unfold get_match_confidence, accumulated_score.
  destruct (id_pair_hit cloud iac);
    destruct (py_eq (resource_type cloud) (resource_type iac));
    destruct (py_eq (get cloud "name") (get iac "name"));
    destruct (py_eq (get cloud "region") (get iac "region"));
    (split; [vm_compute; intuition | repeat split; vm_compute; reflexivity]).
Qed.

(** X8.  The confidence is 1.0 exactly when the two resources share a
    non-empty identity value, or their types, their names and their
    regions all compare equal (fields absent on both sides included). *)
Theorem get_match_confidence_full_iff :
  forall cloud iac : resource,
    get_match_confidence cloud iac = f1_0 <->
    id_pair_hit cloud iac = true \/
    (py_eq (resource_type cloud) (resource_type iac) = true /\
     py_eq (get cloud "name") (get iac "name") = true /\
     py_eq (get cloud "region") (get iac "region") = true).
Proof.
  intros cloud iac. unfold get_match_confidence.
  destruct (id_pair_hit cloud iac); [intuition|].
  destruct (py_eq (resource_type cloud) (resource_type iac));
    destruct (py_eq (get cloud "name") (get iac "name"));
    destruct (py_eq (get cloud "region") (get iac "region"));
    vm_compute; intuition discriminate.
Qed.

(* ================================================================== *)
(** * Further properties of the path conversion *)

Lemma replace_char_cons (q c : ascii) (s : string) :
  replace (String q EmptyString) EmptyString (String c s)
  = if Ascii.eqb q c then replace (String q EmptyString) EmptyString s
    else String c (replace (String q EmptyString) EmptyString s).
Proof.
  unfold replace. cbn [replace_from String.prefix String.length Nat.sub].
  destruct (ascii_dec q c) as [E | E].
  - subst. rewrite Ascii.eqb_refl. destruct s; reflexivity.
  - apply Ascii.eqb_neq in E. now rewrite E.
Qed.

Lemma replace_char_keeps (p : ascii -> bool) (q : ascii) (s : string) :
  string_forallb p s = true ->
  string_forallb p (replace (String q EmptyString) EmptyString s) = true.
Proof.
  induction s as [|c s IH]; [reflexivity|].
  cbn [string_forallb]. intros [Hc Hs]%andb_true_iff.
  rewrite replace_char_cons. destruct (Ascii.eqb q c); [auto|].
  cbn [string_forallb]. now rewrite Hc, IH.
Qed.

Lemma replace_char_removes (q : ascii) (s : string) :
  string_forallb (fun c => negb (Ascii.eqb c q))
    (replace (String q EmptyString) EmptyString s) = true.
Proof.
  induction s as [|c s IH]; [reflexivity|].
  rewrite replace_char_cons. destruct (Ascii.eqb q c) eqn:E; [exact IH|].
  cbn [string_forallb]. rewrite Ascii.eqb_sym, E. exact IH.
Qed.

Lemma string_forallb_and (p q : ascii -> bool) (s : string) :
  string_forallb p s = true -> string_forallb q s = true ->
  string_forallb (fun c => p c && q c) s = true.
Proof.
  induction s as [|c s IH]; [reflexivity|]. cbn [string_forallb].
  intros [Hp Hs]%andb_true_iff [Hq Hs']%andb_true_iff.
  now rewrite Hp, Hq, IH.
Qed.

(** The last three replacements leave no quote and no bracket. *)
Lemma punctuation_removed (s : string) :
  plain (replace "]" EmptyString
           (replace "[" EmptyString (replace "'" EmptyString s))) = true.
Proof.
  unfold plain, plain_char.
  apply string_forallb_and; [apply string_forallb_and|].
  - do 2 apply replace_char_keeps. apply replace_char_removes.
  - apply replace_char_keeps. apply replace_char_removes.
  - apply replace_char_removes.
Qed.

(** X9.  Whatever the path, the key name contains no quote and no
    bracket. *)
Theorem convert_path_to_key_name_plain :
  forall path : string, plain (_convert_path_to_key_name path) = true.
Proof.
  intros path. unfold _convert_path_to_key_name. cbn zeta.
  apply punctuation_removed.
Qed.

Lemma prefix_forallb (f : ascii -> bool) (p s : string) :
  String.prefix p s = true -> string_forallb f s = true ->
  string_forallb f p = true.
Proof.
  revert s. induction p as [|c p IH]; intros s; [reflexivity|].
  destruct s as [|a s]; [discriminate|]. cbn [String.prefix string_forallb].
  destruct (ascii_dec c a) as [<- | _]; [|discriminate].
  intros Hp [Hc Hs]%andb_true_iff. now rewrite Hc, (IH s).
Qed.

Lemma endswith_forallb (f : ascii -> bool) (suf s : string) :
  endswith suf s = true -> string_forallb f s = true ->
  string_forallb f suf = true.
Proof.
  induction s as [|c s IH]; cbn [endswith].
  - destruct (String.eqb EmptyString suf) eqn:E; [|discriminate].
    apply String.eqb_eq in E. now subst.
  - destruct (String.eqb (String c s) suf) eqn:E.
    + apply String.eqb_eq in E. now subst.
    + cbn [string_forallb]. intros H [_ Hs]%andb_true_iff. auto.
Qed.

Lemma replace_plain_text (q : ascii) (pat rep s : string) :
  plain_char q = false -> plain s = true ->
  replace (String q pat) rep s = s.
Proof.
  intros Hq. induction s as [|c s IH]; [reflexivity|].
  cbn [plain string_forallb]. intros [Hc Hs]%andb_true_iff.
  rewrite replace_plain by assumption. now rewrite IH.
Qed.

(** A text without quotes and brackets is its own key name. *)
Lemma convert_plain_text (s : string) :
  plain s = true -> _convert_path_to_key_name s = s.
Proof.
  intros Hs. unfold _convert_path_to_key_name. cbn zeta.
  destruct (startswith "root['" s) eqn:E1.
  { apply prefix_forallb with (f := plain_char) in E1; [discriminate | exact Hs]. }
  destruct (endswith "']" s) eqn:E2.
  { apply endswith_forallb with (f := plain_char) in E2; [discriminate | exact Hs]. }
  rewrite (replace_plain_text "'" "]['" "." s) by (reflexivity || assumption).
  rewrite (replace_plain_text "]" "[" "." s) by (reflexivity || assumption).
  rewrite (replace_plain_text "'" EmptyString EmptyString s)
    by (reflexivity || assumption).
  rewrite (replace_plain_text "[" EmptyString EmptyString s)
    by (reflexivity || assumption).
  apply replace_plain_text; [reflexivity | assumption].
Qed.

(** X10.  The conversion is idempotent: a key name converted again is
    unchanged. *)
Theorem convert_path_to_key_name_idempotent :
  forall path : string,
    _convert_path_to_key_name (_convert_path_to_key_name path)
    = _convert_path_to_key_name path.
Proof.
  intros path. apply convert_plain_text.
  unfold _convert_path_to_key_name. cbn zeta.
  apply punctuation_removed.
Qed.

(* ================================================================== *)
(** * Further properties of the ChangeLog *)

Lemma for_each_ok_iff {A B : Type} (body : A -> result (list B)) (l : list A) :
  (exists out, for_each body l = Ok out) <->
  (forall a, In a l -> exists o, body a = Ok o).
Proof.
  induction l as [|a l IH]; cbn [for_each].
  - split; [intros _ a [] | intros _; now exists []].
  - split.
    + intros [out H] x [<- | Hx].
      * destruct (body a) as [o|]; [now exists o | discriminate].
      * destruct (body a) as [o|]; [|discriminate]. cbn [bind] in H.
        destruct (for_each body l) as [rest|]; [|discriminate].
        apply (proj1 IH); [now exists rest | exact Hx].
    + intros H. destruct (H a (or_introl eq_refl)) as [o ->].
      destruct (proj2 IH) as [rest ->]; [intros x Hx; apply H; now right|].
      cbn. now eexists.
Qed.

Lemma for_each_length {A B : Type} (body : A -> result (list B))
  (n : A -> nat) (l : list A) (out : list B) :
  (forall a o, In a l -> body a = Ok o -> List.length o = n a) ->
  for_each body l = Ok out -> List.length out = list_sum (map n l).
Proof.
  revert out. induction l as [|a l IH]; cbn [for_each]; intros out Hn H.
  - now injection H as <-.
  - destruct (body a) as [o|] eqn:Ho; [|discriminate]. cbn [bind] in H.
    destruct (for_each body l) as [rest|] eqn:Hr; [|discriminate].
    injection H as <-. rewrite length_app. cbn [map list_sum].
    rewrite (Hn a o (or_introl eq_refl) Ho).
    rewrite (IH rest); [reflexivity | | reflexivity].
    intros x o' Hx. apply Hn. now right.
Qed.

Lemma py_iter_ok_iff (v : value) :
  (exists items, py_iter v = Ok items) <-> not_iterable v = false.
Proof.
  destruct v; cbn; split; intros H; try discriminate; try reflexivity;
    try (now eexists); destruct H; discriminate.
Qed.

Lemma chars_length (s : string) : List.length (chars s) = String.length s.
Proof. induction s; cbn; auto. Qed.

Lemma py_iter_length (v : value) (items : list value) :
  py_iter v = Ok items -> List.length items = iter_length v.
Proof.
  destruct v; cbn; intros [= <-];
    [apply chars_length | reflexivity | apply length_map].
Qed.

Section ChangeLogMore.

Variable py_float : string -> option spec_float.
Variable py_str : value -> string.

Lemma values_changed_ok_iff (l : list (string * change)) :
  (exists out,
      for_each (fun pc : string * change =>
        cloud_value <- normalize_value py_float (new_value (snd pc)) ;;
        iac_value <- normalize_value py_float (old_value (snd pc)) ;;
        Ok [mk_entry (_convert_path_to_key_name (fst pc)) cloud_value iac_value])
        l = Ok out) <->
  (forall p c, In (p, c) l ->
     bad_digits (new_value c) = false /\ bad_digits (old_value c) = false).
Proof.
  rewrite for_each_ok_iff. split.
  - intros H p c Hin. destruct (H (p, c) Hin) as [o Ho]. cbn [fst snd] in Ho.
    split; apply (normalize_value_ok_iff py_float).
    + destruct (normalize_value py_float (new_value c)) as [w|];
        [now exists w | discriminate].
    + destruct (normalize_value py_float (new_value c)) as [w|];
        [|discriminate]. cbn [bind] in Ho.
      destruct (normalize_value py_float (old_value c)) as [w'|];
        [now exists w' | discriminate].
  - intros H [p c] Hin. cbn [fst snd].
    destruct (H p c Hin) as [Hn Ho].
    apply (normalize_value_ok_iff py_float) in Hn as [w ->].
    apply (normalize_value_ok_iff py_float) in Ho as [w' ->].
    cbn. now eexists.
Qed.

Lemma iterable_items_ok_iff (mark : string)
  (mk : string -> value -> change_entry) (l : list (string * value)) :
  (exists out,
      for_each (fun pi : string * value =>
        items <- py_iter (snd pi) ;;
        Ok (map (mk (_convert_path_to_key_name (fst pi) ++ mark)%string) items))
        l = Ok out) <->
  (forall p v, In (p, v) l -> not_iterable v = false).
Proof.
  rewrite for_each_ok_iff. split.
  - intros H p v Hin. destruct (H (p, v) Hin) as [o Ho]. cbn [fst snd] in Ho.
    apply py_iter_ok_iff.
    destruct (py_iter v) as [items|]; [now exists items | discriminate].
  - intros H [p v] Hin. cbn [fst snd].
    destruct (proj2 (py_iter_ok_iff v) (H p v Hin)) as [items ->].
    cbn. now eexists.
Qed.

Lemma process_diff_ok_iff (d : diff) :
  (exists log, process_diff py_float py_str d = Ok log) <->
  (forall p c, In (p, c) (values_changed d) ->
     bad_digits (new_value c) = false /\ bad_digits (old_value c) = false) /\
  (forall p v, In (p, v) (iterable_item_added d) -> not_iterable v = false) /\
  (forall p v, In (p, v) (iterable_item_removed d) -> not_iterable v = false).
Proof.
  rewrite <- values_changed_ok_iff.
  rewrite <- (iterable_items_ok_iff "[+]" (fun k item => mk_entry k item VNone)).
  rewrite <- (iterable_items_ok_iff "[-]" (fun k item => mk_entry k VNone item)).
  unfold process_diff, _process_values_changed, _process_dictionary_item_added,
    _process_dictionary_item_removed, _process_type_changes,
    _process_iterable_item_added, _process_iterable_item_removed.
  destruct (for_each _ (values_changed d)) as [vc|]; cbn [bind].
  - destruct (for_each _ (iterable_item_added d)) as [ia|]; cbn [bind].
    + destruct (for_each _ (iterable_item_removed d)) as [ir|]; cbn [bind].
      * split; [intros _; repeat split; now eexists | intros _; now eexists].
      * split; [intros [log H]; discriminate | intros (_ & _ & [o H]); discriminate].
    + split; [intros [log H]; discriminate | intros (_ & [o H] & _); discriminate].
  - split; [intros [log H]; discriminate | intros ([o H] & _); discriminate].
Qed.

Lemma process_diff_length (d : diff) (log : list change_entry) :
  process_diff py_float py_str d = Ok log ->
  List.length log =
    List.length (values_changed d) + List.length (dictionary_item_added d)
    + List.length (dictionary_item_removed d) + List.length (type_changes d)
    + list_sum (map (fun pv => iter_length (snd pv)) (iterable_item_added d))
    + list_sum (map (fun pv => iter_length (snd pv)) (iterable_item_removed d)).
Proof.
  unfold process_diff, _process_values_changed, _process_dictionary_item_added,
    _process_dictionary_item_removed, _process_type_changes,
    _process_iterable_item_added, _process_iterable_item_removed.
  destruct (for_each _ (values_changed d)) as [vc|] eqn:Hvc;
    cbn [bind]; [|discriminate].
  destruct (for_each _ (iterable_item_added d)) as [ia|] eqn:Hia;
    cbn [bind]; [|discriminate].
  destruct (for_each _ (iterable_item_removed d)) as [ir|] eqn:Hir;
    cbn [bind]; [|discriminate].
  intros [= <-]. rewrite !length_app, !length_map. cbn [List.length].
  apply for_each_length with (n := fun _ => 1) in Hvc.
  - apply for_each_length
      with (n := fun pv : string * value => iter_length (snd pv)) in Hia, Hir.
    + rewrite Hvc, Hia, Hir.
      assert (E : forall l : list (string * change),
                 list_sum (map (fun _ => 1) l) = List.length l)
        by (induction l; cbn; auto).
      rewrite E. lia.
    + intros [p v] o _. cbn [fst snd].
      destruct (py_iter v) as [items|] eqn:Hi; cbn [bind]; [|discriminate].
      intros [= <-]. rewrite length_map. now apply py_iter_length.
    + intros [p v] o _. cbn [fst snd].
      destruct (py_iter v) as [items|] eqn:Hi; cbn [bind]; [|discriminate].
      intros [= <-]. rewrite length_map. now apply py_iter_length.
  - intros [p c] o _. cbn [fst snd].
    destruct (normalize_value py_float (new_value c)); cbn [bind]; [|discriminate].
    destruct (normalize_value py_float (old_value c)); cbn [bind]; [|discriminate].
    now intros [= <-].
Qed.

End ChangeLogMore.

Lemma diff_is_empty_iff (d : diff) :
  diff_is_empty d = true <-> d = empty_diff.
Proof.
  split; [|now intros ->].
  destruct d as [[|] [|] [|] [|] [|] [|]]; cbn; try discriminate. reflexivity.
Qed.

(** The same, with the texts that the normalizer refuses spelled out. *)
Lemma convert_diff_to_changelog_ok_iff :
  forall (py_float : string -> option spec_float) (py_str : value -> string)
         (DeepDiff : value -> value -> list string -> diff)
         (cloud iac : resource),
    let d := DeepDiff (VDict iac) (VDict cloud) exclude_paths in
    (exists log,
        convert_diff_to_changelog py_float py_str DeepDiff cloud iac = Ok log) <->
    (forall p c, In (p, c) (values_changed d) ->
       bad_digits (new_value c) = false /\ bad_digits (old_value c) = false) /\
    (forall p v, In (p, v) (iterable_item_added d) -> not_iterable v = false) /\
    (forall p v, In (p, v) (iterable_item_removed d) -> not_iterable v = false).
Proof.
  intros py_float py_str DeepDiff cloud iac d.
  unfold convert_diff_to_changelog. fold d.
  destruct (diff_is_empty d) eqn:E.
  - apply diff_is_empty_iff in E. rewrite E. cbn.
    split; [intros _; intuition | intros _; now eexists].
  - apply process_diff_ok_iff.
Qed.

(** X11.  The conversion of a diff returns a ChangeLog exactly when the
    normalizer returns on the new and the old value of every changed
    value and every added or removed iterable item is a text, a sequence
    or a mapping; otherwise it raises.  Dictionary items and type changes
    never make it raise, [str] being taken to format every value of a
    type change. *)
Theorem convert_diff_to_changelog_returns_iff :
  forall (py_float : string -> option spec_float) (py_str : value -> string)
         (DeepDiff : value -> value -> list string -> diff)
         (cloud iac : resource),
    let d := DeepDiff (VDict iac) (VDict cloud) exclude_paths in
    (exists log,
        convert_diff_to_changelog py_float py_str DeepDiff cloud iac = Ok log) <->
    (forall p c, In (p, c) (values_changed d) ->
       (exists w, normalize_value py_float (new_value c) = Ok w) /\
       (exists w, normalize_value py_float (old_value c) = Ok w)) /\
    (forall p v, In (p, v) (iterable_item_added d) -> not_iterable v = false) /\
    (forall p v, In (p, v) (iterable_item_removed d) -> not_iterable v = false).
Proof.
  intros py_float py_str DeepDiff cloud iac d.
  pose proof (convert_diff_to_changelog_ok_iff py_float py_str DeepDiff cloud iac)
    as H.
  cbn zeta in H. fold d in H. rewrite H. clear H.
  split; intros (Hv & Ha & Hr); (split; [|split; assumption]);
    intros p c Hin; destruct (Hv p c Hin) as [Hn Ho];
    split; now apply (normalize_value_ok_iff py_float).
Qed.

(** X12.  A ChangeLog has one entry for each changed value, each added
    and each removed dictionary item and each type change, and, for each
    added or removed iterable item, as many entries as iterating over
    the item yields (its characters, elements or keys). *)
Theorem convert_diff_to_changelog_length :
  forall (py_float : string -> option spec_float) (py_str : value -> string)
         (DeepDiff : value -> value -> list string -> diff)
         (cloud iac : resource) (log : list change_entry),
    let d := DeepDiff (VDict iac) (VDict cloud) exclude_paths in
    convert_diff_to_changelog py_float py_str DeepDiff cloud iac = Ok log ->
    List.length log =
      List.length (values_changed d) + List.length (dictionary_item_added d)
      + List.length (dictionary_item_removed d) + List.length (type_changes d)
      + list_sum (map (fun pv => iter_length (snd pv)) (iterable_item_added d))
      + list_sum (map (fun pv => iter_length (snd pv)) (iterable_item_removed d)).
Proof.
  intros py_float py_str DeepDiff cloud iac log d.
  unfold convert_diff_to_changelog. fold d.
  destruct (diff_is_empty d) eqn:E.
  - apply diff_is_empty_iff in E. rewrite E. now intros [= <-].
  - apply process_diff_length.
Qed.

(** The security groups of [test_array_differences]: the added group of
    eight characters gives eight entries. *)
Lemma convert_diff_to_changelog_length_witness :
  let cloud := [("id", VStr "ec2-1");
                ("security_groups",
                 VList [VStr "sg-12345"; VStr "sg-67890"; VStr "sg-11111"])] in
  let iac := [("id", VStr "ec2-1");
              ("security_groups", VList [VStr "sg-12345"; VStr "sg-67890"])] in
  exists log,
    convert_diff_to_changelog float_of_no_number str_of_basic DeepDiff_model
      cloud iac = Ok log /\
    List.length log = 8.
Proof.
  intros cloud iac. eexists. split; [reflexivity|].
  apply (convert_diff_to_changelog_length float_of_no_number str_of_basic
           DeepDiff_model cloud iac).
  reflexivity.
Defined.

(* ================================================================== *)
(** * Further properties of the comparison of arrays by [id] *)

Lemma build_id_map_no_id (m : list (value * value)) (array : list value) :
  forallb no_id_item array = true -> build_id_map m array = Ok m.
Proof.
  induction array as [|item rest IH]; [reflexivity|].
  cbn [forallb]. intros [Hi Hr]%andb_true_iff.
  destruct item; try discriminate. cbn [no_id_item] in Hi.
  apply negb_true_iff in Hi. cbn [build_id_map contains_id bind].
  rewrite Hi. now apply IH.
Qed.

Lemma no_id_guard (cloud_array iac_array : list value) :
  cloud_array <> [] -> iac_array <> [] ->
  forallb no_id_item cloud_array = true ->
  forallb no_id_item iac_array = true ->
  id_matching_guard cloud_array iac_array = true.
Proof.
  destruct cloud_array as [|x c]; [congruence|].
  destruct iac_array as [|y i]; [congruence|].
  cbn [forallb id_matching_guard].
  intros _ _ [Hx _]%andb_true_iff [Hy _]%andb_true_iff.
  now destruct x, y.
Qed.

(** X13.  Elements without an [id] are left out of the comparison: for
    two non-empty arrays of mappings none of which has an [id], no
    difference is reported, however the elements differ and whatever the
    diff engine is. *)
Theorem compare_arrays_without_ids :
  forall (py_str : value -> string)
         (DeepDiff : value -> value -> list string -> diff)
         (cloud_array iac_array : list value) (array_path : string),
    cloud_array <> [] -> iac_array <> [] ->
    forallb no_id_item cloud_array = true ->
    forallb no_id_item iac_array = true ->
    compare_arrays_with_id_matching py_str DeepDiff cloud_array iac_array
      array_path = Ok [].
Proof.
  intros py_str DeepDiff cloud_array iac_array array_path Hc Hi Hnc Hni.
  unfold compare_arrays_with_id_matching.
  rewrite no_id_guard by assumption.
  now rewrite !build_id_map_no_id.
Qed.

Lemma compare_arrays_without_ids_witness :
  compare_arrays_with_id_matching str_of_basic DeepDiff_model
    [VDict [("name", VStr "web-sg"); ("ports", VList [VInt 80])]]
    [VDict [("name", VStr "db-sg"); ("ports", VList [VInt 5432])]]
    "security_groups" = Ok [].
Proof.
  apply compare_arrays_without_ids; (discriminate || reflexivity).
Defined.

Lemma build_id_map_raises (m : list (value * value)) (array : list value)
  (e : exn) :
  build_id_map m array = Raise e -> e = TypeError.
Proof.
  revert m. induction array as [|item rest IH]; intros m; cbn [build_id_map];
    [discriminate|].
  destruct (contains_id item) as [[|]|] eqn:Hc; cbn [bind].
  - destruct (subscript_id item) as [k|] eqn:Hs; cbn [bind].
    + destruct (hashable k); [apply IH | now intros [= <-]].
    + destruct item; cbn in Hs; try discriminate; injection Hs as <-;
        now intros [= <-].
  - apply IH.
  - destruct item; cbn in Hc; try discriminate; injection Hc as <-;
      now intros [= <-].
Qed.

Lemma build_id_map_not_iterable (m : list (value * value)) (array : list value) :
  existsb not_iterable array = true -> build_id_map m array = Raise TypeError.
Proof.
  revert m. induction array as [|item rest IH]; intros m; [discriminate|].
  cbn [existsb]. intros H.
  destruct (build_id_map m (item :: rest)) as [m'|e] eqn:Hb;
    [|now rewrite (build_id_map_raises _ _ _ Hb)].
  exfalso. cbn [build_id_map] in Hb.
  destruct (contains_id item) as [[|]|] eqn:Hc; cbn [bind] in Hb;
    [| |discriminate].
  - destruct (subscript_id item) as [k|]; cbn [bind] in Hb; [|discriminate].
    destruct (hashable k); [|discriminate].
    destruct item; try discriminate; cbn [not_iterable orb] in H;
      rewrite (IH _ H) in Hb; discriminate.
  - destruct item; try discriminate; cbn [not_iterable orb] in H;
      rewrite (IH _ H) in Hb; discriminate.
Qed.

(** X14.  Only the first element of each array is tested for being a
    mapping: once both first elements are mappings, an element of
    either array that is null, a boolean or a number makes the
    comparison raise [TypeError]. *)
Theorem compare_arrays_raises_on_scalar :
  forall (py_str : value -> string)
         (DeepDiff : value -> value -> list string -> diff)
         (cloud_array iac_array : list value) (array_path : string),
    id_matching_guard cloud_array iac_array = true ->
    existsb not_iterable (cloud_array ++ iac_array) = true ->
    compare_arrays_with_id_matching py_str DeepDiff cloud_array iac_array
      array_path = Raise TypeError.
Proof.
  intros py_str DeepDiff cloud_array iac_array array_path Hg H.
  unfold compare_arrays_with_id_matching. rewrite Hg.
  rewrite existsb_app in H. apply orb_true_iff in H as [H | H].
  - now rewrite build_id_map_not_iterable.
  - destruct (build_id_map [] cloud_array) as [cloud_map|e] eqn:Hb; cbn [bind].
    + now rewrite build_id_map_not_iterable.
    + now rewrite (build_id_map_raises _ _ _ Hb).
Qed.

Lemma compare_arrays_raises_on_scalar_witness :
  compare_arrays_with_id_matching str_of_basic DeepDiff_model
    [VDict [("id", VStr "sg-1")]; VInt 443]
    [VDict [("id", VStr "sg-1")]]
    "security_groups" = Raise TypeError.
Proof.
  apply compare_arrays_raises_on_scalar; reflexivity.
Defined.

Lemma py_eq_text_l (s : string) (v : value) :
  py_eq (VStr s) v = true -> v = VStr s.
Proof.
  destruct v; cbn; try discriminate.
  intros H. apply String.eqb_eq in H. now subst.
Qed.

Lemma map_find_set_text (m : list (value * value)) (a b : string) (item : value) :
  map_find (map_set m (VStr a) item) (VStr b)
  = if String.eqb a b then Some item else map_find m (VStr b).
Proof.
  unfold map_find. induction m as [|[k x] m IH]; cbn [map_set find fst snd].
  - cbn [py_eq]. now destruct (String.eqb a b).
  - destruct (py_eq k (VStr a)) eqn:Ea; cbn [find fst snd].
    + apply py_eq_text_r in Ea. subst k. cbn [py_eq].
      now destruct (String.eqb a b).
    + destruct (py_eq k (VStr b)) eqn:Eb; [|exact IH].
      destruct (String.eqb a b) eqn:E; [|reflexivity].
      apply String.eqb_eq in E. subst b. congruence.
Qed.

Lemma map_find_key (m : list (value * value)) (s : string) :
  map_find m (VStr s) <> None <-> In (VStr s) (map fst m).
Proof.
  unfold map_find. split.
  - destruct (find _ m) as [kv|] eqn:Hf; [intros _ | congruence].
    apply find_some in Hf as [Hin He]. apply py_eq_text_r in He.
    rewrite <- He. now apply in_map.
  - intros (kv & Hk & Hin)%in_map_iff.
    destruct (find _ m) as [kv'|] eqn:Hf; [discriminate|].
    apply find_none with (x := kv) in Hf; [|assumption].
    rewrite Hk in Hf. cbn in Hf. now rewrite String.eqb_refl in Hf.
Qed.

Lemma map_get_find (m : list (value * value)) (k : value) :
  map_get m k = match map_find m k with Some v => v | None => VNone end.
Proof. unfold map_get, map_find. now destruct (find _ m). Qed.

(** The map built from an array of mappings whose ids are texts. *)
Lemma build_id_map_text (array : list value) (m : list (value * value)) :
  forallb text_id_item array = true ->
  exists m', build_id_map m array = Ok m' /\
    (forall s, existsb (has_text_id s) array = false ->
               map_find m' (VStr s) = map_find m (VStr s)) /\
    (forall s, existsb (has_text_id s) array = true ->
               exists d, map_find m' (VStr s) = Some (VDict d) /\ d <> []).
Proof.
  revert m. induction array as [|item rest IH]; intros m.
  - intros _. exists m. split; [reflexivity|].
    split; [reflexivity | intros s H; discriminate].
  - cbn [forallb]. intros [Hi Hr]%andb_true_iff.
    destruct item as [| | | | | |d]; try discriminate.
    cbn [text_id_item] in Hi. cbn [build_id_map contains_id bind existsb].
    unfold has_key. cbn [has_text_id]. unfold subscript_id, get.
    destruct (dict_get "id" d) as [[| | | |t| |]|] eqn:Hd; try discriminate;
      cbn [bind hashable orb].
    + destruct (IH (map_set m (VStr t) (VDict d)) Hr) as (m' & -> & Hn & Hy).
      exists m'. split; [reflexivity|]. split.
      * intros s [Ht Hs]%orb_false_iff.
        rewrite (Hn s Hs), map_find_set_text. now rewrite Ht.
      * intros s Hs. destruct (existsb (has_text_id s) rest) eqn:Hrest;
          [now apply Hy|].
        rewrite orb_false_r in Hs.
        exists d. rewrite (Hn s Hrest), map_find_set_text, Hs.
        split; [reflexivity|]. intros ->. discriminate.
    + exact (IH m Hr).
Qed.

Lemma text_id_guard (cloud_array iac_array : list value) :
  cloud_array <> [] -> iac_array <> [] ->
  forallb text_id_item cloud_array = true ->
  forallb text_id_item iac_array = true ->
  id_matching_guard cloud_array iac_array = true.
Proof.
  destruct cloud_array as [|x c]; [congruence|].
  destruct iac_array as [|y i]; [congruence|].
  cbn [forallb id_matching_guard].
  intros _ _ [Hx _]%andb_true_iff [Hy _]%andb_true_iff.
  now destruct x, y.
Qed.

(** X15.  For two non-empty arrays of mappings whose ids are texts the
    comparison returns, and an id that only the cloud array has is
    reported as ADDED, an id that only the IaC array has as REMOVED,
    each under the path of the array followed by the id. *)
Theorem compare_arrays_one_sided_ids :
  forall (py_str : value -> string)
         (DeepDiff : value -> value -> list string -> diff)
         (cloud_array iac_array : list value) (array_path : string),
    cloud_array <> [] -> iac_array <> [] ->
    forallb text_id_item cloud_array = true ->
    forallb text_id_item iac_array = true ->
    exists log,
      compare_arrays_with_id_matching py_str DeepDiff cloud_array iac_array
        array_path = Ok log /\
      (forall s,
          existsb (has_text_id s) cloud_array = true ->
          existsb (has_text_id s) iac_array = false ->
          In (mk_entry (array_path ++ "." ++ py_str (VStr s))%string
                       (VStr "ADDED") VNone) log) /\
      (forall s,
          existsb (has_text_id s) cloud_array = false ->
          existsb (has_text_id s) iac_array = true ->
          In (mk_entry (array_path ++ "." ++ py_str (VStr s))%string
                       VNone (VStr "REMOVED")) log).
Proof.
  intros py_str DeepDiff cloud_array iac_array array_path Hc Hi Htc Hti.
  unfold compare_arrays_with_id_matching.
  rewrite text_id_guard by assumption.
  destruct (build_id_map_text cloud_array [] Htc) as (cm & -> & Hcn & Hcy).
  destruct (build_id_map_text iac_array [] Hti) as (im & -> & Hin & Hiy).
  cbn [bind]. eexists. split; [reflexivity|]. split.
  - intros s Hs Hs'. apply in_flat_map. exists (VStr s). split.
    + unfold union_keys. apply in_or_app. left.
      apply map_find_key. destruct (Hcy s Hs) as (d & -> & _). discriminate.
    + unfold compare_one_id. rewrite !map_get_find.
      destruct (Hcy s Hs) as (d & -> & Hd). rewrite (Hin s Hs').
      destruct d; [congruence|]. cbn. now left.
  - intros s Hs Hs'. apply in_flat_map. exists (VStr s). split.
    + unfold union_keys. apply in_or_app. right. apply filter_In. split.
      * apply map_find_key. destruct (Hiy s Hs') as (d & -> & _). discriminate.
      * apply negb_true_iff. unfold py_in.
        destruct (existsb (py_eq (VStr s)) (map fst cm)) eqn:E; [|reflexivity].
        apply existsb_exists in E as (k & Hk & E).
        apply py_eq_text_l in E. subst k.
        apply map_find_key in Hk. now rewrite (Hcn s Hs) in Hk.
    + unfold compare_one_id. rewrite !map_get_find.
      destruct (Hiy s Hs') as (d & -> & Hd). rewrite (Hcn s Hs).
      destruct d; [congruence|]. cbn. now left.
Qed.

(** The arrays of [test_compare_arrays_with_id_matching]: [sg-2] is in
    the cloud array only, [sg-3] in the IaC array only. *)
Lemma compare_arrays_one_sided_ids_witness :
  let cloud_array :=
    [VDict [("id", VStr "sg-1"); ("name", VStr "web-sg");
            ("ports", VList [VInt 80; VInt 443])];
     VDict [("id", VStr "sg-2"); ("name", VStr "db-sg");
            ("ports", VList [VInt 5432])]] in
  let iac_array :=
    [VDict [("id", VStr "sg-1"); ("name", VStr "web-sg");
            ("ports", VList [VInt 80; VInt 443; VInt 8080])];
     VDict [("id", VStr "sg-3"); ("name", VStr "api-sg");
            ("ports", VList [VInt 3000])]] in
  exists log,
    compare_arrays_with_id_matching str_of_basic DeepDiff_model
      cloud_array iac_array "security_groups" = Ok log /\
    In (mk_entry "security_groups.sg-2" (VStr "ADDED") VNone) log /\
    In (mk_entry "security_groups.sg-3" VNone (VStr "REMOVED")) log.
Proof.
  intros cloud_array iac_array.
  destruct (compare_arrays_one_sided_ids str_of_basic DeepDiff_model
              cloud_array iac_array "security_groups")
    as (log & Hlog & Hadded & Hremoved);
    try discriminate; try reflexivity.
  exists log. split; [exact Hlog|]. split.
  - apply (Hadded "sg-2"); reflexivity.
  - apply (Hremoved "sg-3"); reflexivity.
Defined.

(* ================================================================== *)
(** * Nested values *)

Lemma dict_get_set_same (k : string) (v : value) (d : list (string * value)) :
  dict_get k (dict_set k v d) = Some v.
Proof.
  induction d as [|[k' x] d IH]; cbn [dict_set dict_get].
  - now rewrite String.eqb_refl.
  - destruct (String.eqb k k') eqn:E; cbn [dict_get]; rewrite E; auto.
Qed.

Lemma dict_get_set_other (k k' : string) (v : value) (d : list (string * value)) :
  k <> k' -> dict_get k (dict_set k' v d) = dict_get k d.
Proof.
  intros Hk. apply String.eqb_neq in Hk.
  induction d as [|[k'' x] d IH]; cbn [dict_set dict_get].
  - now rewrite Hk.
  - destruct (String.eqb k' k'') eqn:E; cbn [dict_get].
    + apply String.eqb_eq in E. subst k''. now rewrite Hk.
    + now rewrite IH.
Qed.

Lemma str_split_nonempty (sep : ascii) (s : string) : str_split sep s <> [].
Proof.
  destruct s as [|c s]; cbn [str_split]; [discriminate|].
  destruct (Ascii.eqb c sep); [discriminate|].
  destruct (str_split sep s); discriminate.
Qed.

Lemma set_get_nested_from (rest : list string) (key : string) (v : value)
  (d d' : list (string * value)) :
  set_nested_from key rest v d = Ok d' ->
  get_nested_from (key :: rest) (VDict d') = v.
Proof.
  revert key d d'. induction rest as [|key' rest IH]; intros key d d';
    cbn [set_nested_from].
  - intros [= <-]. cbn [get_nested_from]. now rewrite dict_get_set_same.
  - destruct (dict_get key d) as [[| | | | | |c]|]; try discriminate.
    + destruct (set_nested_from key' rest v c) as [child|] eqn:Hc;
        cbn [bind]; [|discriminate].
      intros [= <-]. cbn [get_nested_from]. rewrite dict_get_set_same.
      exact (IH _ _ _ Hc).
    + destruct (set_nested_from key' rest v []) as [child|] eqn:Hc;
        cbn [bind]; [|discriminate].
      intros [= <-]. cbn [get_nested_from]. rewrite dict_get_set_same.
      exact (IH _ _ _ Hc).
Qed.

(** X16.  What [set_nested_value] stores under a dotted path,
    [get_nested_value] reads back under the same path. *)
Theorem get_nested_value_after_set :
  forall (obj obj' : resource) (key_path : string) (v : value),
    set_nested_value obj key_path v = Ok obj' ->
    get_nested_value obj' key_path = v.
Proof.
  intros obj obj' key_path v. unfold set_nested_value, get_nested_value.
  destruct (str_split "." key_path) as [|key rest] eqn:E.
  - now elim (str_split_nonempty "." key_path).
  - apply set_get_nested_from.
Qed.

Lemma get_nested_value_after_set_witness :
  get_nested_value
    [("id", VStr "ec2-1");
     ("tags", VDict [("Environment", VStr "production");
                     ("totalAmount", VStr "17kb")])]
    "tags.totalAmount" = VStr "17kb".
Proof.
  apply (get_nested_value_after_set
           [("id", VStr "ec2-1");
            ("tags", VDict [("Environment", VStr "production")])]).
  reflexivity.
Defined.

Lemma set_nested_from_other (rest : list string) (key k : string) (v : value)
  (d d' : list (string * value)) :
  k <> key -> set_nested_from key rest v d = Ok d' ->
  dict_get k d' = dict_get k d.
Proof.
  intros Hk. destruct rest as [|key' rest]; cbn [set_nested_from].
  - intros [= <-]. now apply dict_get_set_other.
  - destruct (dict_get key d) as [[| | | | | |c]|]; try discriminate.
    + destruct (set_nested_from key' rest v c); cbn [bind]; [|discriminate].
      intros [= <-]. now apply dict_get_set_other.
    + destruct (set_nested_from key' rest v []); cbn [bind]; [|discriminate].
      intros [= <-]. now apply dict_get_set_other.
Qed.

(** X17.  [set_nested_value] touches the first key of its path only:
    every other top-level key keeps its value, and so does every value
    read under a path that starts with another key. *)
Theorem set_nested_value_other_keys :
  forall (obj obj' : resource) (key_path : string) (v : value)
         (key : string) (rest : list string),
    set_nested_value obj key_path v = Ok obj' ->
    str_split "." key_path = key :: rest ->
    (forall k, k <> key -> dict_get k obj' = dict_get k obj) /\
    (forall other k rest',
        str_split "." other = k :: rest' -> k <> key ->
        get_nested_value obj' other = get_nested_value obj other).
Proof.
  intros obj obj' key_path v key rest H E.
  unfold set_nested_value in H. rewrite E in H.
  assert (Hk : forall k, k <> key -> dict_get k obj' = dict_get k obj)
    by (intros k Hk; exact (set_nested_from_other _ _ _ _ _ _ Hk H)).
  split; [exact Hk|].
  intros other k rest' Eo Hne. unfold get_nested_value. rewrite Eo.
  cbn [get_nested_from]. now rewrite (Hk k Hne).
Qed.

Lemma set_nested_value_other_keys_witness :
  get_nested_value
    [("config", VDict [("size", VInt 100)]);
     ("tags", VDict [("Owner", VStr "devops-team")])]
    "config.size"
  = get_nested_value [("config", VDict [("size", VInt 100)])] "config.size".
Proof.
  apply (proj2 (set_nested_value_other_keys
                  [("config", VDict [("size", VInt 100)])]
                  [("config", VDict [("size", VInt 100)]);
                   ("tags", VDict [("Owner", VStr "devops-team")])]
                  "tags.Owner" (VStr "devops-team") "tags" ["Owner"]
                  eq_refl eq_refl)
          "config.size" "config" ["size"]);
    [reflexivity | discriminate].
Defined.

Lemma set_nested_from_raises (rest : list string) (key : string) (v : value)
  (d : list (string * value)) (e : exn) :
  set_nested_from key rest v d = Raise e ->
  e = TypeError /\ d <> [].
Proof.
  revert key d e. induction rest as [|key' rest IH]; intros key d e;
    cbn [set_nested_from]; [discriminate|].
  assert (Hd : forall x, dict_get key d = Some x -> d <> [])
    by (intros x Hx ->; discriminate).
  destruct (dict_get key d) as [[| | | | | |c]|] eqn:Hg;
    try (intros [= <-]; split; [reflexivity | eauto]).
  - destruct (set_nested_from key' rest v c) as [child|e'] eqn:Hc;
      cbn [bind]; [discriminate|].
    intros [= <-]. split; [exact (proj1 (IH _ _ _ Hc)) | eauto].
  - destruct (set_nested_from key' rest v []) as [child|e'] eqn:Hc;
      cbn [bind]; [discriminate|].
    apply IH in Hc as [_ Hc]. congruence.
Qed.

(** X18.  [set_nested_value] never fails on an empty mapping (it creates
    the mappings of the path as it goes), and when it fails on another
    one it is with [TypeError]. *)
Theorem set_nested_value_raises :
  forall (obj : resource) (key_path : string) (v : value) (e : exn),
    set_nested_value obj key_path v = Raise e ->
    e = TypeError /\ obj <> [].
Proof.
  intros obj key_path v e. unfold set_nested_value.
  destruct (str_split "." key_path) as [|key rest]; [discriminate|].
  apply set_nested_from_raises.
Qed.

Lemma set_nested_value_raises_witness :
  set_nested_value [("size", VInt 100)] "size.unit" (VStr "GB")
  = Raise TypeError /\
  (TypeError = TypeError /\ [("size", VInt 100)] <> []).
Proof.
  split; [reflexivity|].
  apply (set_nested_value_raises [("size", VInt 100)] "size.unit" (VStr "GB")).
  reflexivity.
Defined.

Lemma str_split_append (p q : string) :
  str_split "." (p ++ String "." q) = str_split "." p ++ str_split "." q.
Proof.
  induction p as [|c p IH]; cbn [append str_split].
  - reflexivity.
  - rewrite IH. destruct (Ascii.eqb c "."); [reflexivity|].
    pose proof (str_split_nonempty "." p) as Hp.
    destruct (str_split "." p); [congruence | reflexivity].
Qed.

Lemma get_nested_from_none (keys : list string) :
  get_nested_from keys VNone = VNone.
Proof. now destruct keys. Qed.

Lemma get_nested_from_app (l1 l2 : list string) (v : value) :
  get_nested_from (l1 ++ l2) v = get_nested_from l2 (get_nested_from l1 v).
Proof.
  revert v. induction l1 as [|k l1 IH]; intros v; [reflexivity|].
  cbn [app get_nested_from].
  destruct v; try (now rewrite get_nested_from_none).
  destruct (dict_get k d); [apply IH | now rewrite get_nested_from_none].
Qed.

(** X19.  Dotted paths compose: reading under [p.q] is reading under [q]
    in the mapping found under [p], and gives [None] when what is found
    under [p] is not a mapping. *)
Theorem get_nested_value_append :
  forall (obj : resource) (p q : string),
    get_nested_value obj (p ++ String "." q) =
      match get_nested_value obj p with
      | VDict d => get_nested_value d q
      | _ => VNone
      end.
Proof.
  intros obj p q. unfold get_nested_value.
  rewrite str_split_append, get_nested_from_app.
  pose proof (str_split_nonempty "." q) as Hq.
  destruct (str_split "." q) as [|k rest]; [congruence|].
  now destruct (get_nested_from (str_split "." p) (VDict obj)).
Qed.

(* ================================================================== *)
(** * Tags *)

Lemma py_eq_text (a b : string) : py_eq (VStr a) (VStr b) = String.eqb a b.
Proof. reflexivity. Qed.

Lemma tags_of_list_text (tags : list value) (m : list (value * value)) :
  forallb text_keyed tags = true ->
  exists m', tags_of_list m tags = Ok m' /\
    forall k, map_find m' (VStr k)
              = match last_tag k tags with
                | Some v => Some v
                | None => map_find m (VStr k)
                end.
Proof.
  revert m. induction tags as [|item tags IH]; intros m; cbn [forallb].
  - intros _. exists m. split; [reflexivity|]. intros k. reflexivity.
  - intros H. apply andb_true_iff in H as [Hi Ht].
    destruct item as [| | | | | |d];
      try (destruct (IH m Ht) as (m' & Hm & Hk); exists m';
           split; [exact Hm|]; intros k; rewrite Hk; cbn [last_tag];
           now destruct (last_tag k tags)).
    cbn [text_keyed] in Hi. cbn [tags_of_list last_tag].
    destruct (tag_key d) as [| | | |t| |] eqn:Hkey; try discriminate.
    cbn [hashable].
    destruct (IH (map_set m (VStr t) (tag_value d)) Ht) as (m' & Hm & Hk).
    exists m'. split; [exact Hm|]. intros k. rewrite Hk.
    destruct (last_tag k tags); [reflexivity|].
    rewrite map_find_set_text, py_eq_text.
    now destruct (String.eqb t k).
Qed.

(** X20.  [normalize_tags] on a list of tags whose keys are texts: it
    returns a mapping in which every key holds the value of the last
    tag of the list with that key; the elements of the list that are
    not mappings count for nothing. *)
Theorem normalize_tags_last_value :
  forall tags : list value,
    forallb text_keyed tags = true ->
    exists m, normalize_tags (VList tags) = Ok m /\
      forall k, map_find m (VStr k) = last_tag k tags.
Proof.
  intros tags H. destruct (tags_of_list_text tags [] H) as (m & Hm & Hk).
  exists m. split; [exact Hm|]. intros k. rewrite Hk.
  now destruct (last_tag k tags).
Qed.

Lemma normalize_tags_last_value_witness :
  exists m,
    normalize_tags
      (VList [VDict [("Key", VStr "Environment"); ("Value", VStr "staging")];
              VStr "Owner";
              VDict [("key", VStr "Environment"); ("value", VStr "production")]])
    = Ok m /\
    forall k, map_find m (VStr k)
              = last_tag k
                  [VDict [("Key", VStr "Environment"); ("Value", VStr "staging")];
                   VStr "Owner";
                   VDict [("key", VStr "Environment");
                          ("value", VStr "production")]].
Proof.
  apply normalize_tags_last_value. reflexivity.
Defined.

(** X21.  [normalize_tags] raises exactly when the list holds a mapping
    whose key cannot be hashed (a list or a mapping under ['Key']), and
    then it is [TypeError]. *)
Theorem normalize_tags_raises_iff :
  forall (tags : value) (e : exn),
    normalize_tags tags = Raise e <->
    e = TypeError /\
    exists l, tags = VList l /\
      existsb (fun item => match item with
                           | VDict d => negb (hashable (tag_key d))
                           | _ => false
                           end) l = true.
Proof.
  intros tags e.
  assert (Hl : forall l m,
             tags_of_list m l = Raise e <->
             e = TypeError /\
             existsb (fun item => match item with
                                  | VDict d => negb (hashable (tag_key d))
                                  | _ => false
                                  end) l = true).
  { induction l as [|item l IH]; intros m; cbn [tags_of_list existsb].
    - split; [discriminate | intros [_ H]; discriminate].
    - destruct item as [| | | | | |d]; cbn [orb]; try apply IH.
      destruct (hashable (tag_key d)); cbn [negb orb]; [apply IH|].
      split; [intros [= <-]; auto | intros [-> _]; reflexivity]. }
  destruct tags as [| | | | |l|d]; cbn [normalize_tags];
    try (split; [discriminate | intros (_ & l & Hl' & _); discriminate]).
  rewrite Hl. split.
  - intros [He Hx]. split; [exact He|]. now exists l.
  - intros (He & l' & [= <-] & Hx). now split.
Qed.

(* ================================================================== *)
(** * Further properties of the Reconciliation Orchestrator *)

Lemma find_matching_in_pool (cloud : resource) (pool : list resource)
  (r : resource) :
  find_matching_iac_resource cloud pool = Some r -> In r pool.
Proof.
  rewrite find_matching_cascade.
  unfold _primary_match, _secondary_match, _tertiary_match.
  intros Hf.
  repeat match type of Hf with
         | context [find ?p ?l] =>
             let E := fresh "E" in
             destruct (find p l) eqn:E;
             [apply find_some in E as [E _]|]
         | context [if ?b then _ else _] => destruct b
         end; try discriminate; injection Hf as <-; assumption.
Qed.

Lemma find_matching_truthy (cloud : resource) (pool : list resource)
  (r : resource) :
  find_matching_iac_resource cloud pool = Some r -> truthy (VDict r) = true.
Proof.
  unfold find_matching_iac_resource. cbn zeta.
  repeat match goal with
         | |- context [match_truthy ?m] =>
             let E := fresh "E" in
             destruct (match_truthy m) eqn:E
         end; try discriminate; intros H; rewrite H in *; assumption.
Qed.

Lemma find_matching_empty_pool (cloud : resource) :
  find_matching_iac_resource cloud [] = None.
Proof.
  destruct (find_matching_iac_resource cloud []) as [r|] eqn:H; [|reflexivity].
  now apply find_matching_in_pool in H.
Qed.

Lemma map_result_app {A B : Type} (f : A -> result B) (l1 l2 : list A) :
  map_result f (l1 ++ l2) =
    (a <- map_result f l1 ;; b <- map_result f l2 ;; Ok (a ++ b)).
Proof.
  induction l1 as [|x l1 IH]; cbn [app map_result bind].
  - now destruct (map_result f l2).
  - destruct (f x); cbn [bind]; [|reflexivity].
    rewrite IH. destruct (map_result f l1); cbn [bind]; [|reflexivity].
    now destruct (map_result f l2).
Qed.

Lemma map_result_raises_iff {A B : Type} (f : A -> result B) (l : list A)
  (e : exn) :
  map_result f l = Raise e <->
  exists l1 a l2, l = l1 ++ a :: l2 /\
    (forall x, In x l1 -> exists b, f x = Ok b) /\ f a = Raise e.
Proof.
  induction l as [|x l IH]; cbn [map_result].
  - split; [discriminate|]. intros (l1 & a & l2 & H & _). now destruct l1.
  - destruct (f x) as [b|e'] eqn:Hx; cbn [bind].
    + assert (Hstep : map_result f l = Raise e <->
                      exists l1 a l2, x :: l = l1 ++ a :: l2 /\
                        (forall y, In y l1 -> exists b, f y = Ok b) /\
                        f a = Raise e).
      { rewrite IH. split.
        - intros (l1 & a & l2 & -> & Hl1 & Ha).
          exists (x :: l1), a, l2. repeat split; auto.
          intros z [<- | Hz]; eauto.
        - intros (l1 & a & l2 & H & Hl1 & Ha).
          destruct l1 as [|y l1]; cbn in H; injection H as -> ->; [congruence|].
          exists l1, a, l2. repeat split; auto.
          intros z Hz. apply Hl1. now right. }
      rewrite <- Hstep.
      destruct (map_result f l) as [rest|e'']; cbn [bind];
        split; congruence.
    + split.
      * intros [= ->]. exists [], x, l. repeat split; auto. intros z [].
      * intros (l1 & a & l2 & H & Hl1 & Ha).
        destruct l1 as [|y l1]; cbn in H; injection H as -> ->; [congruence|].
        destruct (Hl1 y (or_introl eq_refl)) as [b' Hb]. congruence.
Qed.

Lemma count_state_app (s : string) (l1 l2 : list analysis_item) :
  count_state s (l1 ++ l2) = count_state s l1 + count_state s l2.
Proof. unfold count_state. now rewrite filter_app, length_app. Qed.

Lemma count_state_missing_all (cs : list resource) :
  count_state "Missing" (map (fun c => mk_item c None "Missing" []) cs)
  = List.length cs /\
  count_state "Modified" (map (fun c => mk_item c None "Missing" []) cs) = 0 /\
  count_state "Match" (map (fun c => mk_item c None "Missing" []) cs) = 0.
Proof.
  unfold count_state. induction cs as [|c cs (H1 & H2 & H3)]; [now cbn|].
  cbn [map filter State]. change (String.eqb "Missing" "Missing") with true.
  change (String.eqb "Missing" "Modified") with false.
  change (String.eqb "Missing" "Match") with false.
  cbn [List.length]. now rewrite H1, H2, H3.
Qed.

Lemma without_ids_set (k : string) (v : value) (r : resource) :
  In k id_fields -> without_ids (dict_set k v r) = without_ids r.
Proof.
  intros Hk. unfold without_ids.
  assert (Hx : existsb (String.eqb k) id_fields = true).
  { apply existsb_exists. exists k. split; [assumption | apply String.eqb_refl]. }
  induction r as [|[k' x] r IH]; cbn [dict_set filter fst].
  - now rewrite Hx.
  - destruct (String.eqb k k') eqn:E.
    + apply String.eqb_eq in E. subst k'. cbn [filter fst]. now rewrite Hx.
    + cbn [filter fst]. now rewrite IH.
Qed.

Section AnalyzerMore.

Variable py_float : string -> option spec_float.
Variable py_str : value -> string.
Variable DeepDiff : value -> value -> list string -> diff.

(** What the analysis of one resource gives, by what the matcher finds. *)
Lemma analyze_single_resource_cases (cloud : resource) (pool : list resource) :
  match find_matching_iac_resource cloud pool with
  | None =>
      _analyze_single_resource py_float py_str DeepDiff cloud pool
      = Ok (mk_item cloud None "Missing" [])
  | Some iac =>
      In iac pool /\
      if _are_resources_identical DeepDiff cloud iac
      then _analyze_single_resource py_float py_str DeepDiff cloud pool
           = Ok (mk_item cloud (Some iac) "Match" [])
      else _analyze_single_resource py_float py_str DeepDiff cloud pool
           = (change_log <- convert_diff_to_changelog py_float py_str DeepDiff
                              cloud iac ;;
              Ok (mk_item cloud (Some iac) "Modified" change_log))
  end.
Proof.
  unfold _analyze_single_resource.
  destruct (find_matching_iac_resource cloud pool) as [iac|] eqn:Hf;
    [|reflexivity].
  split; [exact (find_matching_in_pool _ _ _ Hf)|].
  rewrite (find_matching_truthy _ _ _ Hf). cbn [negb].
  now destruct (_are_resources_identical DeepDiff cloud iac).
Qed.

(** X22.  Against an empty pool of IaC resources every cloud resource is
    [Missing], whatever the diff engine: [analyze] returns, never
    raises, and the summary counts them all as missing. *)
Theorem analyze_empty_pool :
  forall cloud_resources : list resource,
    analyze py_float py_str DeepDiff cloud_resources []
    = Ok (mk_report
            (map (fun c => mk_item c None "Missing" []) cloud_resources)
            (mk_summary (List.length cloud_resources)
                        (List.length cloud_resources) 0 0)).
Proof.
  intros cs. unfold analyze.
  assert (Hm : map_result
                 (fun c => _analyze_single_resource py_float py_str DeepDiff c [])
                 cs
               = Ok (map (fun c => mk_item c None "Missing" []) cs)).
  { induction cs as [|c cs IH]; [reflexivity|].
    cbn [map_result map]. rewrite IH.
    pose proof (analyze_single_resource_cases c []) as Hc.
    rewrite find_matching_empty_pool in Hc. now rewrite Hc. }
  rewrite Hm. cbn [bind]. unfold _generate_summary.
  destruct (count_state_missing_all cs) as (-> & -> & ->).
  now rewrite length_map.
Qed.

(** X23.  The analysis goes resource by resource: analysing two lists of
    cloud resources one after the other against the same pool gives the
    items of the first analysis followed by those of the second, and
    the counts of the two summaries added; it raises when one of the
    two does, the first one first. *)
Theorem analyze_app :
  forall (cloud1 cloud2 pool : list resource),
    analyze py_float py_str DeepDiff (cloud1 ++ cloud2) pool =
      (r1 <- analyze py_float py_str DeepDiff cloud1 pool ;;
       r2 <- analyze py_float py_str DeepDiff cloud2 pool ;;
       Ok (mk_report
             (analysis r1 ++ analysis r2)
             (mk_summary (total (summary r1) + total (summary r2))
                         (missing (summary r1) + missing (summary r2))
                         (modified (summary r1) + modified (summary r2))
                         (match_ (summary r1) + match_ (summary r2))))).
Proof.
  intros c1 c2 pool. unfold analyze. rewrite map_result_app.
  destruct (map_result _ c1) as [a|]; cbn [bind]; [|reflexivity].
  destruct (map_result _ c2) as [b|]; cbn [bind]; [|reflexivity].
  unfold _generate_summary. cbn [analysis summary total missing modified match_].
  now rewrite !count_state_app, length_app.
Qed.

Lemma analyze_single_resource_raises (cloud : resource) (pool : list resource)
  (e : exn) :
  _analyze_single_resource py_float py_str DeepDiff cloud pool = Raise e <->
  exists iac,
    find_matching_iac_resource cloud pool = Some iac /\
    _are_resources_identical DeepDiff cloud iac = false /\
    convert_diff_to_changelog py_float py_str DeepDiff cloud iac = Raise e.
Proof.
  pose proof (analyze_single_resource_cases cloud pool) as Hc.
  destruct (find_matching_iac_resource cloud pool) as [iac|].
  - destruct Hc as [_ Hc].
    destruct (_are_resources_identical DeepDiff cloud iac) eqn:Hi; rewrite Hc.
    + split; [discriminate|]. intros (iac' & [= <-] & H & _). congruence.
    + split.
      * destruct (convert_diff_to_changelog _ _ _ cloud iac) as [log|e'] eqn:Hd;
          cbn [bind]; [discriminate|].
        intros [= ->]. now exists iac.
      * intros (iac' & [= <-] & _ & ->). reflexivity.
  - rewrite Hc. split; [discriminate|]. intros (iac & H & _). discriminate.
Qed.

(** X24.  [analyze] has no handler of its own: it raises exactly when
    the conversion of a diff raises for some cloud resource whose
    counterpart differs from it, and the exception is that of the first
    such resource of the list. *)
Theorem analyze_raises_iff :
  forall (cloud_resources pool : list resource) (e : exn),
    analyze py_float py_str DeepDiff cloud_resources pool = Raise e <->
    exists before cloud after iac,
      cloud_resources = before ++ cloud :: after /\
      (forall c, In c before ->
         exists it, _analyze_single_resource py_float py_str DeepDiff c pool
                    = Ok it) /\
      find_matching_iac_resource cloud pool = Some iac /\
      _are_resources_identical DeepDiff cloud iac = false /\
      convert_diff_to_changelog py_float py_str DeepDiff cloud iac = Raise e.
Proof.
  intros cs pool e. unfold analyze.
  assert (Hb : forall l,
             (items <- map_result
                         (fun c => _analyze_single_resource py_float py_str
                                     DeepDiff c pool) l ;;
              Ok (mk_report items (_generate_summary items))) = Raise e <->
             map_result
               (fun c => _analyze_single_resource py_float py_str
                           DeepDiff c pool) l = Raise e).
  { intros l. destruct (map_result _ l); cbn [bind]; split; congruence. }
  rewrite Hb, map_result_raises_iff. split.
  - intros (l1 & a & l2 & -> & Hl1 & Ha).
    apply analyze_single_resource_raises in Ha as (iac & H1 & H2 & H3).
    exists l1, a, l2, iac. auto.
  - intros (l1 & a & l2 & iac & -> & Hl1 & H1 & H2 & H3).
    exists l1, a, l2. repeat split; auto.
    apply analyze_single_resource_raises. now exists iac.
Qed.

Lemma analyze_items_of (cloud_resources pool : list resource)
  (items : list analysis_item) :
  map_result (fun c => _analyze_single_resource py_float py_str DeepDiff c pool)
             cloud_resources = Ok items ->
  Forall2 (fun cloud it =>
             CloudResourceItem it = cloud /\
             IacResourceItem it = find_matching_iac_resource cloud pool /\
             (State it = "Missing" <->
              find_matching_iac_resource cloud pool = None) /\
             (State it = "Match" <-> matched_identical DeepDiff pool cloud = true) /\
             (State it = "Modified" <->
              find_matching_iac_resource cloud pool <> None /\
              matched_identical DeepDiff pool cloud = false) /\
             (State it <> "Modified" -> ChangeLog it = []))
          cloud_resources items.
Proof.
  intros Hm. apply map_result_Forall2 in Hm.
  induction Hm as [|c it cs its Hc _ IH]; constructor; [|assumption].
  pose proof (analyze_single_resource_cases c pool) as Hcase.
  unfold matched_identical.
  destruct (find_matching_iac_resource c pool) as [iac|].
  - destruct Hcase as [_ Hcase].
    destruct (_are_resources_identical DeepDiff c iac).
    + rewrite Hcase in Hc. injection Hc as <-. cbn.
      intuition (try discriminate; try congruence).
    + rewrite Hcase in Hc.
      destruct (convert_diff_to_changelog _ _ _ c iac) as [log|];
        cbn [bind] in Hc; [|discriminate].
      injection Hc as <-. cbn.
      intuition (try discriminate; try congruence).
  - rewrite Hcase in Hc. injection Hc as <-. cbn.
    intuition (try discriminate; try congruence).
Qed.

(** X25.  The items of a report, when [analyze] returns one: one item
    per cloud resource, in the order of the list, that holds the cloud
    resource and what the matcher found for it; the item is [Missing]
    exactly when the matcher found nothing, [Match] exactly when the
    counterpart found is identical apart from the identity fields,
    [Modified] otherwise; only a [Modified] item has changes. *)
Theorem analyze_items :
  forall (cloud_resources pool : list resource) (r : analysis_report),
    analyze py_float py_str DeepDiff cloud_resources pool = Ok r ->
    Forall2 (fun cloud it =>
               CloudResourceItem it = cloud /\
               IacResourceItem it = find_matching_iac_resource cloud pool /\
               (State it = "Missing" <->
                find_matching_iac_resource cloud pool = None) /\
               (State it = "Match" <->
                matched_identical DeepDiff pool cloud = true) /\
               (State it = "Modified" <->
                find_matching_iac_resource cloud pool <> None /\
                matched_identical DeepDiff pool cloud = false) /\
               (State it <> "Modified" -> ChangeLog it = []))
            cloud_resources (analysis r).
Proof.
  intros cs pool r. unfold analyze.
  destruct (map_result _ cs) as [items|] eqn:Hm; cbn [bind]; [|discriminate].
  intros [= <-]. cbn [analysis]. now apply analyze_items_of.
Qed.

Lemma count_state_of (cloud_resources pool : list resource)
  (items : list analysis_item) :
  map_result (fun c => _analyze_single_resource py_float py_str DeepDiff c pool)
             cloud_resources = Ok items ->
  count_state "Missing" items
  = List.length (filter (fun c => found_nothing (find_matching_iac_resource c pool))
                        cloud_resources) /\
  count_state "Match" items
  = List.length (filter (matched_identical DeepDiff pool) cloud_resources).
Proof.
  intros Hm. apply analyze_items_of in Hm. unfold count_state.
  induction Hm as [|c it cs its (_ & _ & Hmiss & Hmatch & _) _ [IH1 IH2]];
    [now split|].
  cbn [filter]. split.
  - destruct (find_matching_iac_resource c pool) as [iac|]; cbn [found_nothing].
    + destruct (String.eqb (State it) "Missing") eqn:E; [|exact IH1].
      apply String.eqb_eq, Hmiss in E. discriminate.
    + rewrite (proj2 Hmiss eq_refl). cbn. now rewrite IH1.
  - destruct (matched_identical DeepDiff pool c).
    + rewrite (proj2 Hmatch eq_refl). cbn. now rewrite IH2.
    + destruct (String.eqb (State it) "Match") eqn:E; [|exact IH2].
      apply String.eqb_eq, Hmatch in E. discriminate.
Qed.

(** X26.  The summary of a report, when [analyze] returns one: the total
    is the number of cloud resources, [missing] is the number of those
    for which the matcher finds nothing, [match] the number of those
    whose counterpart is identical, and [modified] is the rest. *)
Theorem analyze_summary_counts :
  forall (cloud_resources pool : list resource) (r : analysis_report),
    analyze py_float py_str DeepDiff cloud_resources pool = Ok r ->
    total (summary r) = List.length cloud_resources /\
    missing (summary r)
    = List.length (filter (fun c => found_nothing (find_matching_iac_resource c pool))
                          cloud_resources) /\
    match_ (summary r)
    = List.length (filter (matched_identical DeepDiff pool) cloud_resources) /\
    modified (summary r)
    = total (summary r) - missing (summary r) - match_ (summary r).
Proof.
  intros cs pool r H.
  destruct (analyze_report_shape py_float py_str DeepDiff cs pool r H)
    as (_ & _ & _ & Ht & Hsum).
  unfold analyze in H.
  destruct (map_result _ cs) as [items|] eqn:Hm; cbn [bind] in H; [|discriminate].
  injection H as <-.
  cbn [summary _generate_summary total missing modified match_] in *.
  destruct (count_state_of cs pool items Hm) as [H1 H2].
  repeat split; auto; lia.
Qed.

Lemma detailed_changes_flat (items : list analysis_item) :
  Forall (fun it => State it <> "Modified" -> ChangeLog it = []) items ->
  map change_ (get_detailed_changes items) = flat_map ChangeLog items.
Proof.
  unfold get_detailed_changes.
  induction 1 as [|it items Hit _ IH]; [reflexivity|].
  cbn [flat_map]. rewrite map_app, IH. f_equal.
  destruct (String.eqb (State it) "Modified") eqn:E; cbn [andb].
  - destruct (ChangeLog it) as [|c log]; cbn [is_nil negb]; [reflexivity|].
    rewrite map_map. cbn [change_]. now rewrite map_id.
  - apply String.eqb_neq in E. now rewrite (Hit E).
Qed.

(** X27.  [get_detailed_changes] on the items of a report of [analyze]
    loses no change and invents none: its entries carry, in order, the
    changes of all the ChangeLogs of the report, each with the [id] and
    the [name] of a cloud resource of the report, or ['unknown']. *)
Theorem get_detailed_changes_of_analysis :
  forall (cloud_resources pool : list resource) (r : analysis_report),
    analyze py_float py_str DeepDiff cloud_resources pool = Ok r ->
    map change_ (get_detailed_changes (analysis r))
    = flat_map ChangeLog (analysis r) /\
    forall d, In d (get_detailed_changes (analysis r)) ->
      exists cloud, In cloud cloud_resources /\
        resource_id d = get_default cloud "id" (VStr "unknown") /\
        resource_name d = get_default cloud "name" (VStr "unknown").
Proof.
  intros cs pool r H.
  unfold analyze in H.
  destruct (map_result _ cs) as [items|] eqn:Hm; cbn [bind] in H; [|discriminate].
  injection H as <-. cbn [analysis].
  apply analyze_items_of in Hm. rename Hm into Hit.
  split.
  - apply detailed_changes_flat.
    induction Hit as [|c it cs' its (_ & _ & _ & _ & _ & Hc) _ IH];
      constructor; auto.
  - intros d Hd. unfold get_detailed_changes in Hd.
    apply in_flat_map in Hd as (it & Hin & Hd).
    destruct (String.eqb (State it) "Modified" && negb (is_nil (ChangeLog it)));
      [|contradiction].
    apply in_map_iff in Hd as (c & <- & _). cbn [resource_id resource_name].
    exists (CloudResourceItem it). split; [|auto].
    clear - Hit Hin. induction Hit as [|c' it' cs' its (Hc & _) _ IH];
      [contradiction|].
    destruct Hin as [-> | Hin]; [left; now symmetry | right; auto].
Qed.

(** X28.  The comparison of two resources looks at nothing under the
    identity fields: setting an [id], a [resource_id] or an [arn] of
    either resource to any value, or adding one, changes nothing to it,
    whatever the diff engine. *)
Theorem are_resources_identical_ignores_ids :
  forall (cloud iac : resource) (k k' : string) (v w : value),
    In k id_fields -> In k' id_fields ->
    _are_resources_identical DeepDiff (dict_set k v cloud) (dict_set k' w iac)
    = _are_resources_identical DeepDiff cloud iac.
Proof.
  intros cloud iac k k' v w Hk Hk'. unfold _are_resources_identical. cbn zeta.
  now rewrite !without_ids_set.
Qed.

End AnalyzerMore.

Lemma analyze_items_witness :
  Forall2 (fun cloud it =>
             CloudResourceItem it = cloud /\
             IacResourceItem it = find_matching_iac_resource cloud sample_iac /\
             (State it = "Missing" <->
              find_matching_iac_resource cloud sample_iac = None) /\
             (State it = "Match" <->
              matched_identical DeepDiff_model sample_iac cloud = true) /\
             (State it = "Modified" <->
              find_matching_iac_resource cloud sample_iac <> None /\
              matched_identical DeepDiff_model sample_iac cloud = false) /\
             (State it <> "Modified" -> ChangeLog it = []))
          sample_cloud (analysis sample_report).
Proof.
  apply (analyze_items float_of_no_number str_of_basic DeepDiff_model
           sample_cloud sample_iac sample_report).
  reflexivity.
Defined.

Lemma analyze_summary_counts_witness :
  total (summary sample_report) = List.length sample_cloud /\
  missing (summary sample_report)
  = List.length (filter (fun c => found_nothing (find_matching_iac_resource c sample_iac))
                        sample_cloud) /\
  match_ (summary sample_report)
  = List.length (filter (matched_identical DeepDiff_model sample_iac)
                        sample_cloud) /\
  modified (summary sample_report)
  = total (summary sample_report) - missing (summary sample_report)
    - match_ (summary sample_report).
Proof.
  apply (analyze_summary_counts float_of_no_number str_of_basic DeepDiff_model
           sample_cloud sample_iac sample_report).
  reflexivity.
Defined.

Lemma get_detailed_changes_of_analysis_witness :
  map change_ (get_detailed_changes (analysis sample_report))
  = flat_map ChangeLog (analysis sample_report) /\
  forall d, In d (get_detailed_changes (analysis sample_report)) ->
    exists cloud, In cloud sample_cloud /\
      resource_id d = get_default cloud "id" (VStr "unknown") /\
      resource_name d = get_default cloud "name" (VStr "unknown").
Proof.
  apply (get_detailed_changes_of_analysis float_of_no_number str_of_basic
           DeepDiff_model sample_cloud sample_iac sample_report).
  reflexivity.
Defined.

Lemma are_resources_identical_ignores_ids_witness :
  _are_resources_identical DeepDiff_model
    (dict_set "id" (VStr "i-9") [("id", VStr "i-1"); ("name", VStr "web")])
    (dict_set "arn" (VInt 7) [("id", VStr "i-2"); ("name", VStr "web")])
  = _are_resources_identical DeepDiff_model
      [("id", VStr "i-1"); ("name", VStr "web")]
      [("id", VStr "i-2"); ("name", VStr "web")].
Proof.
  apply (are_resources_identical_ignores_ids DeepDiff_model);
    [left; reflexivity | right; right; left; reflexivity].
Defined.

Lemma count_state_step (it : analysis_item) (results : list analysis_item) :
  let n := count_state "Match" results + count_state "Modified" results
           + count_state "Missing" results in
  count_state "Match" (it :: results) + count_state "Modified" (it :: results)
  + count_state "Missing" (it :: results)
  = if String.eqb (State it) "Match" || String.eqb (State it) "Modified"
       || String.eqb (State it) "Missing"
    then S n else n.
Proof.
  unfold count_state. cbn [filter].
  destruct (String.eqb (State it) "Match") eqn:E1.
  - apply String.eqb_eq in E1. rewrite E1. cbn. lia.
  - destruct (String.eqb (State it) "Modified") eqn:E2.
    + apply String.eqb_eq in E2. rewrite E2. cbn. lia.
    + destruct (String.eqb (State it) "Missing"); cbn; lia.
Qed.

(** X29.  [_generate_summary] on any list of items, not only one built
    by [analyze]: the three counts never exceed the total, and they add
    up to it exactly when every item is in one of the three states. *)
Theorem generate_summary_counts :
  forall results : list analysis_item,
    let s := _generate_summary results in
    match_ s + modified s + missing s <= total s /\
    (match_ s + modified s + missing s = total s <->
     Forall (fun it => known_state (State it)) results).
Proof.
  intros results. cbn zeta. unfold _generate_summary.
  cbn [total missing modified match_].
  induction results as [|it results [IHle IHeq]].
  - split; [cbn; lia|]. split; [constructor | reflexivity].
  - pose proof (count_state_step it results) as Hs. cbn zeta in Hs.
    rewrite Hs. cbn [List.length]. clear Hs.
    destruct (String.eqb (State it) "Match") eqn:E1;
      [|destruct (String.eqb (State it) "Modified") eqn:E2;
        [|destruct (String.eqb (State it) "Missing") eqn:E3]];
      cbn [orb].
    + apply String.eqb_eq in E1. split; [lia|]. split.
      * intros H. constructor; [now left | apply IHeq; lia].
      * intros H. inversion H; subst. apply IHeq in H3. lia.
    + apply String.eqb_eq in E2. split; [lia|]. split.
      * intros H. constructor; [right; now left | apply IHeq; lia].
      * intros H. inversion H; subst. apply IHeq in H3. lia.
    + apply String.eqb_eq in E3. split; [lia|]. split.
      * intros H. constructor; [right; now right | apply IHeq; lia].
      * intros H. inversion H; subst. apply IHeq in H3. lia.
    + apply String.eqb_neq in E1, E2, E3. split; [lia|]. split; [lia|].
      intros H. inversion H; subst. unfold known_state in H2. tauto.
Qed.
